(** * go-xattr-fuse: extended attributes kept in a bolt store, overlaid on a
    pass-through filesystem.

    Shallow embedding of [go-xattr-fuse.go].  The four attribute methods of
    [xattrFs] are state-passing functions over the bolt database held in the
    package variable [db]; the overlay "redirect" methods are state-passing
    functions over the embedded [pathfs.FileSystem]; [main] is the sequence
    of things it does to the outside.  A Go call either returns or panics,
    so results are wrapped in [outcome].

    The [slog.D]/[slog.P] calls only write diagnostics to stderr; they touch
    neither the store nor the backing filesystem and are left out. *)

From Stdlib Require Import Strings.String Strings.Ascii ZArith Strings.Byte.
From stdpp Require Import base option list sorting gmap strings.

Local Open Scope Z_scope.

(** ** Go values *)

(** A Go call returns a value or panics (here: a nil-pointer dereference). *)
Inductive outcome (A : Type) : Type :=
| Returned (a : A)
| Panicked.
Arguments Returned {A} a.
Arguments Panicked {A}.

(** A Go slice is either [nil] or a (possibly empty) sequence. *)
Definition slice (A : Type) : Type := option (list A).

Definition slice_len {A} (s : slice A) : nat :=
  match s with
  | None => 0%nat
  | Some l => length l
  end.

(** ** fuse.Status: an int32 errno, with the four values the program names
    (Linux numbering). *)
Module fuse.
Definition Status : Type := Z.
Definition OK : Status := 0.
Definition ENOENT : Status := 2.
Definition EIO : Status := 5.
Definition EBUSY : Status := 16.
End fuse.

(** ** The bolt store, as far as the program uses it

    [github.com/boltdb/bolt] is an imported package.  Its API is modelled
    after its documentation: a database is a map from bucket names to
    buckets, a bucket an ordered map from keys to values; a read-write
    transaction works on a private copy of the buckets that [Commit]
    installs and [Rollback] drops; a cursor walks a bucket in byte order of
    the keys. *)
Module bolt.

Inductive error : Type :=
| ErrDatabaseNotOpen
| ErrTxClosed
| ErrTxNotWritable
| ErrBucketNameRequired
| ErrKeyRequired
| ErrKeyTooLarge
| ErrValueTooLarge
| ErrSync.

(** bolt.MaxKeySize and bolt.MaxValueSize. *)
Definition MaxKeySize : Z := 32768.
Definition MaxValueSize : Z := 2 ^ 31 - 2.

(** The committed state behind [*bolt.DB]: whether the database is open,
    and its buckets.  The program opens it read-write ([bolt.Open] with
    nil options). *)
Record DB : Type := mkDB {
  opened : bool;
  root : gmap string (gmap string (list byte))
}.

(** The state behind a [*bolt.Tx]: [tx_live] is [tx.db != nil]. *)
Record Tx : Type := mkTx {
  tx_live : bool;
  tx_writable : bool;
  tx_root : gmap string (gmap string (list byte))
}.

(** [db.Begin(writable)]: a transaction on the current buckets, or a nil
    transaction and an error when none can begin (the database is not
    open). *)
Definition Begin (writable : bool) (d : DB) : Tx + error :=
  if opened d
  then inl {| tx_live := true; tx_writable := writable; tx_root := root d |}
  else inr ErrDatabaseNotOpen.

(** [tx.Bucket(name)]: the bucket, or nil.  A [*bolt.Bucket] is
    represented by the name of the bucket it points to. *)
Definition Bucket (tx : Tx) (name : string) : option string :=
  match tx_root tx !! name with
  | Some _ => Some name
  | None => None
  end.

(** [tx.CreateBucketIfNotExists(name)]: the bucket of that name, created
    empty when there is none; "returns an error if the bucket name is
    blank". *)
Definition CreateBucketIfNotExists (tx : Tx) (name : string)
  : Tx * (string + error) :=
  if negb (tx_live tx) then (tx, inr ErrTxClosed)
  else if negb (tx_writable tx) then (tx, inr ErrTxNotWritable)
  else if (Z.of_nat (String.length name) =? 0) then (tx, inr ErrBucketNameRequired)
  else match tx_root tx !! name with
       | Some _ => (tx, inl name)
       | None =>
           ({| tx_live := tx_live tx; tx_writable := tx_writable tx;
               tx_root := <[name := ∅]> (tx_root tx) |}, inl name)
       end.

(** [b.Put(key, value)]: "sets the value for a key in the bucket; if the
    key exist then its previous value will be overwritten; returns an error
    if the bucket was created from a read-only transaction, if the key is
    blank, if the key is too large, or if the value is too large".  A
    refused Put leaves the bucket as it was. *)
Definition Put (tx : Tx) (b : string) (key : string) (value : list byte)
  : Tx * option error :=
  if negb (tx_live tx) then (tx, Some ErrTxClosed)
  else if negb (tx_writable tx) then (tx, Some ErrTxNotWritable)
  else if (Z.of_nat (String.length key) =? 0) then (tx, Some ErrKeyRequired)
  else if (Z.of_nat (String.length key) >? MaxKeySize) then (tx, Some ErrKeyTooLarge)
  else if (Z.of_nat (length value) >? MaxValueSize) then (tx, Some ErrValueTooLarge)
  else ({| tx_live := tx_live tx; tx_writable := tx_writable tx;
           tx_root := alter (insert key value) b (tx_root tx) |}, None).

(** [b.Delete(key)]: "if the key does not exist then nothing is done and a
    nil error is returned". *)
Definition Delete (tx : Tx) (b : string) (key : string) : Tx * option error :=
  if negb (tx_live tx) then (tx, Some ErrTxClosed)
  else if negb (tx_writable tx) then (tx, Some ErrTxNotWritable)
  else ({| tx_live := tx_live tx; tx_writable := tx_writable tx;
           tx_root := alter (delete key) b (tx_root tx) |}, None).

(** Byte order on keys ([bytes.Compare]). *)
Definition key_le (e1 e2 : string * list byte) : Prop :=
  String.leb e1.1 e2.1 = true.

#[global] Instance key_le_dec e1 e2 : Decision (key_le e1 e2).
Proof. unfold key_le. apply _. Defined.

(** [b.Cursor()], as the sequence of pairs that [c.First()] and the
    following [c.Next()] calls yield before the nil key. *)
Definition Cursor (tx : Tx) (b : string) : list (string * list byte) :=
  match tx_root tx !! b with
  | Some bkt => merge_sort key_le (map_to_list bkt)
  | None => []
  end.

(** [tx.Commit()]: "writes all changes to disk; returns an error if a disk
    write error occurs".  [disk_ok] says whether the write went through; a
    failed commit rolls the transaction back and the database keeps its
    buckets.  Either way the transaction is closed. *)
Definition Commit (tx : Tx) (disk_ok : bool) (d : DB) : DB * Tx * option error :=
  let closed := {| tx_live := false; tx_writable := tx_writable tx;
                   tx_root := tx_root tx |} in
  if negb (tx_live tx) then (d, tx, Some ErrTxClosed)
  else if negb (tx_writable tx) then (d, tx, Some ErrTxNotWritable)
  else if disk_ok
       then ({| opened := opened d; root := tx_root tx |}, closed, None)
       else (d, closed, Some ErrSync).

(** [tx.Rollback()]: drops the transaction's private copy.  The method
    starts by reading fields of its receiver ([tx.managed], [tx.db]), so on
    a nil [*bolt.Tx] it is a nil-pointer dereference: the call panics.  On
    a transaction that is already closed it only reports [ErrTxClosed]. *)
Definition Rollback (tx : option Tx) : outcome (option error) :=
  match tx with
  | None => Panicked
  | Some t => Returned (if tx_live t then None else Some ErrTxClosed)
  end.

End bolt.

(** ** The attribute methods of xattrFs *)

(** [defer f()]: the deferred call runs when the function returns; if it
    panics, so does the function. *)
Definition deferred {A B S} (d : outcome B) (body : outcome A * S) : outcome A * S :=
  match d with
  | Returned _ => body
  | Panicked => (Panicked, body.2)
  end.

Section xattr.

(** [*fuse.Context], opaque to the program. *)
Variable Context_ : Type.

Definition SetXAttr (name attr : string) (data : list byte) (flags : Z)
    (context : Context_) (disk_ok : bool) (db : bolt.DB)
  : outcome fuse.Status * bolt.DB :=
  match bolt.Begin true db with
  | inr _ => (Returned fuse.EBUSY, db)
  | inl tx =>
      (* defer tx.Rollback() *)
      match bolt.CreateBucketIfNotExists tx name with
      | (tx, inr _) => deferred (bolt.Rollback (Some tx)) (Returned fuse.EIO, db)
      | (tx, inl b) =>
          let '(tx, _) := bolt.Put tx b attr data in
          let '(db', tx, err) := bolt.Commit tx disk_ok db in
          match err with
          | Some _ => deferred (bolt.Rollback (Some tx)) (Returned fuse.EIO, db')
          | None => deferred (bolt.Rollback (Some tx)) (Returned fuse.OK, db')
          end
      end
  end.

Definition boltBucket (name : string) (db : bolt.DB)
  : option bolt.Tx * option string * option (list (string * list byte)) * fuse.Status :=
  match bolt.Begin true db with
  | inr _ => (None, None, None, fuse.EBUSY)
  | inl tx =>
      match bolt.Bucket tx name with
      | None => (Some tx, None, None, fuse.ENOENT)
      | Some b => (Some tx, Some b, Some (bolt.Cursor tx b), fuse.OK)
      end
  end.

(** The loop of GetXAttr over the cursor. *)
Fixpoint GetXAttr_loop (c : list (string * list byte)) (attr : string)
  : slice byte * fuse.Status :=
  match c with
  | [] => (None, fuse.OK)
  | (k, v) :: c' =>
      if String.eqb k attr then (Some v, fuse.OK) else GetXAttr_loop c' attr
  end.

Definition GetXAttr (name attr : string) (context : Context_) (db : bolt.DB)
  : outcome (slice byte * fuse.Status) * bolt.DB :=
  let '(tx, _, c, err) := boltBucket name db in
  deferred (bolt.Rollback tx)
    (if negb (err =? fuse.OK) then (Returned (None, err), db)
     else match c with
          | None => (Panicked, db)
          | Some c => (Returned (GetXAttr_loop c attr), db)
          end).

(** The loop of ListXAttr: [lis = append(lis, string(k))]. *)
Definition ListXAttr_loop (c : list (string * list byte)) (lis : list string)
  : list string :=
  fold_left (fun lis kv => lis ++ [kv.1]) c lis.

Definition ListXAttr (name : string) (context : Context_) (db : bolt.DB)
  : outcome (slice string * fuse.Status) * bolt.DB :=
  let '(tx, _, c, err) := boltBucket name db in
  deferred (bolt.Rollback tx)
    (if negb (err =? fuse.OK) then (Returned (None, err), db)
     else match c with
          | None => (Panicked, db)
          | Some c =>
              let lis := [EmptyString] in          (* make([]string, 1) *)
              let lis := ListXAttr_loop c lis in
              (Returned (Some (drop 1 lis), fuse.OK), db)   (* lis[1:] *)
          end).

Definition RemoveXAttr (name attr : string) (context : Context_)
    (disk_ok : bool) (db : bolt.DB)
  : outcome fuse.Status * bolt.DB :=
  let '(tx, b, _, err) := boltBucket name db in
  deferred (bolt.Rollback tx)
    (if negb (err =? fuse.OK) then (Returned err, db)
     else match tx, b with
          | Some tx, Some b =>
              let '(tx, _) := bolt.Delete tx b attr in
              let '(db', tx, err) := bolt.Commit tx disk_ok db in
              match err with
              | Some _ => (Returned fuse.EIO, db')
              | None => (Returned fuse.OK, db')
              end
          | _, _ => (Panicked, db)
          end).

End xattr.


(** ** The overlay "redirect" methods of xattrFs *)

Section overlay.

(** Types of the fuse, nodefs and time packages that the program only passes
    along: [fuse.Context], [fuse.Attr], [nodefs.File], [fuse.DirEntry],
    [fuse.StatfsOut], [time.Time]. *)
Variables Context_ Attr File DirEntry StatfsOut Time : Type.

(** The part of the [pathfs.FileSystem] interface that the program names,
    over the state [S] of an implementation.  A pointer or interface result
    is an [option] ([None] is nil). *)
Record FileSystem (S : Type) : Type := {
  fs_GetAttr : string -> Context_ -> S -> (option Attr * fuse.Status) * S;
  fs_Readlink : string -> Context_ -> S -> (string * fuse.Status) * S;
  fs_Mknod : string -> Z -> Z -> Context_ -> S -> fuse.Status * S;
  fs_Mkdir : string -> Z -> Context_ -> S -> fuse.Status * S;
  fs_Unlink : string -> Context_ -> S -> fuse.Status * S;
  fs_Rmdir : string -> Context_ -> S -> fuse.Status * S;
  fs_Symlink : string -> string -> Context_ -> S -> fuse.Status * S;
  fs_Rename : string -> string -> Context_ -> S -> fuse.Status * S;
  fs_Link : string -> string -> Context_ -> S -> fuse.Status * S;
  fs_Chmod : string -> Z -> Context_ -> S -> fuse.Status * S;
  fs_Chown : string -> Z -> Z -> Context_ -> S -> fuse.Status * S;
  fs_Truncate : string -> Z -> Context_ -> S -> fuse.Status * S;
  fs_Open : string -> Z -> Context_ -> S -> (option File * fuse.Status) * S;
  fs_OpenDir : string -> Context_ -> S -> (slice DirEntry * fuse.Status) * S;
  fs_Access : string -> Z -> Context_ -> S -> fuse.Status * S;
  fs_Create : string -> Z -> Z -> Context_ -> S -> (option File * fuse.Status) * S;
  fs_Utimens : string -> option Time -> option Time -> Context_ -> S -> fuse.Status * S;
  fs_StatFs : string -> S -> option StatfsOut * S
}.

Variable S : Type.

(** What a method of [xattrFs] can reach: the package variable [db] and the
    state of the embedded [FileSystem]. *)
Record World : Type := mkWorld {
  w_db : bolt.DB;
  w_fs : S
}.

(** [x.FileSystem.m(args)]: the call runs on the backing filesystem's state
    and leaves [db] alone. *)
Definition forward {A} (m : S -> A * S) (w : World) : A * World :=
  let '(r, s) := m (w_fs w) in (r, {| w_db := w_db w; w_fs := s |}).

(** [x] is the receiver; its only field is the embedded [FileSystem]. *)
Variable x : FileSystem S.

Definition GetAttr (name : string) (context : Context_) :=
  forward (fs_GetAttr S x name context).

Definition Readlink (name : string) (context : Context_) :=
  forward (fs_Readlink S x name context).

Definition Mknod (name : string) (mode dev : Z) (context : Context_) :=
  forward (fs_Mknod S x name mode dev context).

Definition Mkdir (name : string) (mode : Z) (context : Context_) :=
  forward (fs_Mkdir S x name mode context).

Definition Unlink (name : string) (context : Context_) :=
  forward (fs_Unlink S x name context).

Definition Rmdir (name : string) (context : Context_) :=
  forward (fs_Rmdir S x name context).

Definition Symlink (value linkName : string) (context : Context_) :=
  forward (fs_Symlink S x value linkName context).

Definition Rename (oldName newName : string) (context : Context_) :=
  forward (fs_Rename S x oldName newName context).

Definition Link (oldName newName : string) (context : Context_) :=
  forward (fs_Link S x oldName newName context).

Definition Chmod (name : string) (mode : Z) (context : Context_) :=
  forward (fs_Chmod S x name mode context).

Definition Chown (name : string) (uid gid : Z) (context : Context_) :=
  forward (fs_Chown S x name uid gid context).

Definition Truncate (name : string) (offset : Z) (context : Context_) :=
  forward (fs_Truncate S x name offset context).

Definition Open (name : string) (flags : Z) (context : Context_) :=
  forward (fs_Open S x name flags context).

Definition OpenDir (name : string) (context : Context_) :=
  forward (fs_OpenDir S x name context).

Definition Access (name : string) (mode : Z) (context : Context_) :=
  forward (fs_Access S x name mode context).

Definition Create (name : string) (flags mode : Z) (context : Context_) :=
  forward (fs_Create S x name flags mode context).

Definition Utimens (name : string) (Atime Mtime : option Time) (context : Context_) :=
  forward (fs_Utimens S x name Atime Mtime context).

(** [StatFs] does not call the embedded filesystem: [return nil]. *)
Definition StatFs (name : string) (w : World) : option StatfsOut * World :=
  (None, w).

(** *** Requests and replies, to speak of "every other operation" *)

(** A call of one of the methods that are not attribute operations. *)
Inductive call : Type :=
| CGetAttr (name : string) (context : Context_)
| CReadlink (name : string) (context : Context_)
| CMknod (name : string) (mode dev : Z) (context : Context_)
| CMkdir (name : string) (mode : Z) (context : Context_)
| CUnlink (name : string) (context : Context_)
| CRmdir (name : string) (context : Context_)
| CSymlink (value linkName : string) (context : Context_)
| CRename (oldName newName : string) (context : Context_)
| CLink (oldName newName : string) (context : Context_)
| CChmod (name : string) (mode : Z) (context : Context_)
| CChown (name : string) (uid gid : Z) (context : Context_)
| CTruncate (name : string) (offset : Z) (context : Context_)
| COpen (name : string) (flags : Z) (context : Context_)
| COpenDir (name : string) (context : Context_)
| CAccess (name : string) (mode : Z) (context : Context_)
| CCreate (name : string) (flags mode : Z) (context : Context_)
| CUtimens (name : string) (Atime Mtime : option Time) (context : Context_)
| CStatFs (name : string).

Inductive reply : Type :=
| RAttr (r : option Attr * fuse.Status)
| RString (r : string * fuse.Status)
| RStatus (r : fuse.Status)
| RFile (r : option File * fuse.Status)
| RDir (r : slice DirEntry * fuse.Status)
| RStatfs (r : option StatfsOut).

Definition tag {A B W} (f : A -> B) (r : A * W) : B * W := (f r.1, r.2).

(** The method of [xattrFs] that serves a call. *)
Definition overlay (c : call) (w : World) : reply * World :=
  match c with
  | CGetAttr n ctx => tag RAttr (GetAttr n ctx w)
  | CReadlink n ctx => tag RString (Readlink n ctx w)
  | CMknod n m d ctx => tag RStatus (Mknod n m d ctx w)
  | CMkdir n m ctx => tag RStatus (Mkdir n m ctx w)
  | CUnlink n ctx => tag RStatus (Unlink n ctx w)
  | CRmdir n ctx => tag RStatus (Rmdir n ctx w)
  | CSymlink v l ctx => tag RStatus (Symlink v l ctx w)
  | CRename o n ctx => tag RStatus (Rename o n ctx w)
  | CLink o n ctx => tag RStatus (Link o n ctx w)
  | CChmod n m ctx => tag RStatus (Chmod n m ctx w)
  | CChown n u g ctx => tag RStatus (Chown n u g ctx w)
  | CTruncate n o ctx => tag RStatus (Truncate n o ctx w)
  | COpen n f ctx => tag RFile (Open n f ctx w)
  | COpenDir n ctx => tag RDir (OpenDir n ctx w)
  | CAccess n m ctx => tag RStatus (Access n m ctx w)
  | CCreate n f m ctx => tag RFile (Create n f m ctx w)
  | CUtimens n a m ctx => tag RStatus (Utimens n a m ctx w)
  | CStatFs n => tag RStatfs (StatFs n w)
  end.

(** The same call made on the backing filesystem itself. *)
Definition backing (c : call) (s : S) : reply * S :=
  match c with
  | CGetAttr n ctx => tag RAttr (fs_GetAttr S x n ctx s)
  | CReadlink n ctx => tag RString (fs_Readlink S x n ctx s)
  | CMknod n m d ctx => tag RStatus (fs_Mknod S x n m d ctx s)
  | CMkdir n m ctx => tag RStatus (fs_Mkdir S x n m ctx s)
  | CUnlink n ctx => tag RStatus (fs_Unlink S x n ctx s)
  | CRmdir n ctx => tag RStatus (fs_Rmdir S x n ctx s)
  | CSymlink v l ctx => tag RStatus (fs_Symlink S x v l ctx s)
  | CRename o n ctx => tag RStatus (fs_Rename S x o n ctx s)
  | CLink o n ctx => tag RStatus (fs_Link S x o n ctx s)
  | CChmod n m ctx => tag RStatus (fs_Chmod S x n m ctx s)
  | CChown n u g ctx => tag RStatus (fs_Chown S x n u g ctx s)
  | CTruncate n o ctx => tag RStatus (fs_Truncate S x n o ctx s)
  | COpen n f ctx => tag RFile (fs_Open S x n f ctx s)
  | COpenDir n ctx => tag RDir (fs_OpenDir S x n ctx s)
  | CAccess n m ctx => tag RStatus (fs_Access S x n m ctx s)
  | CCreate n f m ctx => tag RFile (fs_Create S x n f m ctx s)
  | CUtimens n a m ctx => tag RStatus (fs_Utimens S x n a m ctx s)
  | CStatFs n => tag RStatfs (fs_StatFs S x n s)
  end.

Definition is_StatFs (c : call) : bool :=
  match c with
  | CStatFs _ => true
  | _ => false
  end.

End overlay.


(** ** Sequences of attribute operations *)

Section trace.

Variable Context_ : Type.

(** One attribute call, with what the disk does at its commit. *)
Inductive op : Type :=
| OSet (name attr : string) (data : list byte) (flags : Z)
       (context : Context_) (disk_ok : bool)
| OGet (name attr : string) (context : Context_)
| OList (name : string) (context : Context_)
| ORemove (name attr : string) (context : Context_) (disk_ok : bool).

(** The store after one call. *)
Definition step (o : op) (db : bolt.DB) : bolt.DB :=
  match o with
  | OSet name attr data flags context disk_ok =>
      (SetXAttr Context_ name attr data flags context disk_ok db).2
  | OGet name attr context => (GetXAttr Context_ name attr context db).2
  | OList name context => (ListXAttr Context_ name context db).2
  | ORemove name attr context disk_ok =>
      (RemoveXAttr Context_ name attr context disk_ok db).2
  end.

(** The store after a sequence of calls, first call first. *)
Fixpoint exec (ops : list op) (db : bolt.DB) : bolt.DB :=
  match ops with
  | [] => db
  | o :: ops' => exec ops' (step o db)
  end.

(** [o] is a [Set(p, n, _)] or a [Remove(p, n)]. *)
Definition touches (p n : string) (o : op) : bool :=
  match o with
  | OSet name attr _ _ _ _ => String.eqb name p && String.eqb attr n
  | ORemove name attr _ _ => String.eqb name p && String.eqb attr n
  | _ => false
  end.

(** [o], run on [db], is a [Set] on path [p] that returns [fuse.OK]. *)
Definition writes (p : string) (o : op) (db : bolt.DB) : bool :=
  match o with
  | OSet name attr data flags context disk_ok =>
      String.eqb name p &&
      match (SetXAttr Context_ name attr data flags context disk_ok db).1 with
      | Returned st => st =? fuse.OK
      | Panicked => false
      end
  | _ => false
  end.

(** No call of [ops], run from [db], is a successful [Set] on [p]. *)
Fixpoint never_written (p : string) (ops : list op) (db : bolt.DB) : bool :=
  match ops with
  | [] => true
  | o :: ops' => negb (writes p o db) && never_written p ops' (step o db)
  end.

(** [Set(p, n_i, v_i)] for each [(n_i, v_i)] of [nvs], in order. *)
Definition sets (p : string) (nvs : list (string * list byte)) (flags : Z)
    (context : Context_) : list op :=
  map (fun nv => OSet p nv.1 nv.2 flags context true) nvs.

End trace.

(** ** Keys and values that bolt accepts *)

Definition valid_key (k : string) : bool :=
  negb (Z.of_nat (String.length k) =? 0) &&
  negb (Z.of_nat (String.length k) >? bolt.MaxKeySize).

Definition valid_value (v : list byte) : bool :=
  negb (Z.of_nat (length v) >? bolt.MaxValueSize).

(** The names ListXAttr returns for a bucket: its keys in cursor order. *)
Definition names_of (bkt : gmap string (list byte)) : list string :=
  (merge_sort bolt.key_le (map_to_list bkt)).*1.

(** The buckets once [name] has a bucket, and once [attr] is put in it (a
    refused [Put] changes nothing): the two steps of a committed SetXAttr. *)
Definition with_bucket (name : string)
    (r : gmap string (gmap string (list byte))) : gmap string (gmap string (list byte)) :=
  match r !! name with
  | Some _ => r
  | None => <[name := ∅]> r
  end.

Definition put_attr (name attr : string) (data : list byte)
    (r : gmap string (gmap string (list byte))) : gmap string (gmap string (list byte)) :=
  if valid_key attr && valid_value data
  then alter (insert attr data) name r
  else r.

(** The value stored for attribute [n] of path [p], if any. *)
Definition attr_at (db : bolt.DB) (p n : string) : option (list byte) :=
  bolt.root db !! p ≫= (.!! n).

(** A bucket after a run of upserts. *)
Definition put_all (nvs : list (string * list byte))
    (bkt : gmap string (list byte)) : gmap string (list byte) :=
  fold_left (fun b nv => <[nv.1 := nv.2]> b) nvs bkt.

(** ** Concrete stores and a concrete backing filesystem, for examples *)

(** A freshly created, open store. *)
Definition fresh_db : bolt.DB := {| bolt.opened := true; bolt.root := ∅ |}.

(** A store on which no transaction can begin. *)
Definition closed_db : bolt.DB := {| bolt.opened := false; bolt.root := ∅ |}.

(** [fresh_db] after [Set("/a/b", "user.tag", [1,2])]. *)
Definition tagged_db : bolt.DB :=
  (SetXAttr unit "/a/b" "user.tag" [x01; x02] 0 tt true fresh_db).2.

(** [tagged_db] after [Remove("/a/b", "user.tag")]: "/a/b" keeps an empty
    collection. *)
Definition untagged_db : bolt.DB :=
  (RemoveXAttr unit "/a/b" "user.tag" tt true tagged_db).2.

(** [fresh_db] once "/a/b" has a bucket with nothing in it. *)
Definition blank_db : bolt.DB :=
  {| bolt.opened := true; bolt.root := {["/a/b"%string := ∅]} |}.

(** Two Sets on "/a/b" with distinct names, the first name empty. *)
Definition blank_and_tag : list (op unit) :=
  sets unit "/a/b" [(EmptyString, [x01]); ("user.tag"%string, [x02])] 0 tt.

(** A backing filesystem without state that answers every call with
    success and some value; its [StatFs] returns a non-nil result. *)
Definition yes_fs : FileSystem unit unit unit unit unit unit unit := {|
  fs_GetAttr := fun _ _ s => ((Some tt, fuse.OK), s);
  fs_Readlink := fun _ _ s => (("target"%string, fuse.OK), s);
  fs_Mknod := fun _ _ _ _ s => (fuse.OK, s);
  fs_Mkdir := fun _ _ _ s => (fuse.OK, s);
  fs_Unlink := fun _ _ s => (fuse.OK, s);
  fs_Rmdir := fun _ _ s => (fuse.OK, s);
  fs_Symlink := fun _ _ _ s => (fuse.OK, s);
  fs_Rename := fun _ _ _ s => (fuse.OK, s);
  fs_Link := fun _ _ _ s => (fuse.OK, s);
  fs_Chmod := fun _ _ _ s => (fuse.OK, s);
  fs_Chown := fun _ _ _ _ s => (fuse.OK, s);
  fs_Truncate := fun _ _ _ s => (fuse.OK, s);
  fs_Open := fun _ _ _ s => ((Some tt, fuse.OK), s);
  fs_OpenDir := fun _ _ s => ((Some [tt], fuse.OK), s);
  fs_Access := fun _ _ _ s => (fuse.OK, s);
  fs_Create := fun _ _ _ _ s => ((Some tt, fuse.OK), s);
  fs_Utimens := fun _ _ _ _ s => (fuse.OK, s);
  fs_StatFs := fun _ s => (Some tt, s)
|}.


(** ** More on calls and stores *)

(** The path an attribute call is made on. *)
Definition path_of (Context_ : Type) (o : op Context_) : string :=
  match o with
  | OSet _ name _ _ _ _ _ => name
  | OGet _ name _ _ => name
  | OList _ name _ => name
  | ORemove _ name _ _ _ => name
  end.

Definition panicked {A} (r : outcome A) : bool :=
  match r with
  | Panicked => true
  | Returned _ => false
  end.

(** What a Put of [n], [v] makes of a bucket: refused pairs change nothing. *)
Definition put_one (n : string) (v : list byte)
    (bkt : gmap string (list byte)) : gmap string (list byte) :=
  if valid_key n && valid_value v then <[n := v]> bkt else bkt.

(** Every bucket has a name other than the empty string, and holds only keys
    and values that bolt accepts. *)
Definition well_keyed (db : bolt.DB) : bool :=
  forallb
    (fun pb : string * gmap string (list byte) =>
       negb (String.eqb pb.1 EmptyString) &&
       forallb (fun kv : string * list byte =>
                  valid_key kv.1 && valid_value kv.2)
               (map_to_list pb.2))
    (map_to_list (bolt.root db)).

(** ** main *)

(** What main does to the outside, in order.  The diagnostics of slog and
    the goroutine that unmounts on an interrupt (which makes Serve return)
    are left out. *)
Inductive event : Type :=
| EUsage (prog : string)                (* fmt.Printf of the usage text *)
| EOpen (dbFilename : string)           (* bolt.Open(dbFilename, 0600, nil) *)
| EMount (directory mountpoint : string) (* fuse.NewServer(..., mountpoint, ...)
                                            over the loopback of directory *)
| EServe                                (* server.Serve() *)
| EClose                                (* db.Close() *)
| EExit (code : Z).                     (* os.Exit(code) *)

(** [flag.Arg(i)]: the i-th argument left after the flags, or the empty
    string when there is none. *)
Definition flag_Arg (args : list string) (i : nat) : string :=
  default EmptyString (args !! i).

(** main, over [prog = os.Args[0]], [args = flag.Args()] after
    [flag.Parse()], and what the environment answers: whether [bolt.Open]
    and [fuse.NewServer] succeed. *)
Definition main (prog : string) (args : list string) (open_ok mount_ok : bool)
  : list event :=
  if Z.of_nat (length args) <? 1 then [EUsage prog; EExit 1]
  else
    let dbFilename := flag_Arg args 0 in
    let xattrlessDirectory := flag_Arg args 1 in
    let mountpoint := flag_Arg args 2 in
    EOpen dbFilename ::
    if negb open_ok then [EExit 1]
    else
      EMount xattrlessDirectory mountpoint ::
      if negb mount_ok then [EExit 1]
      else [EServe; EClose].


(** * Properties *)

(** ** What the four attribute methods compute *)

Section xattr_facts.

Variable Context_ : Type.

Implicit Types (db : bolt.DB) (name attr : string) (data : list byte)
  (context : Context_).

(** The scan of GetXAttr finds what a map built from the pairs holds. *)
Lemma GetXAttr_loop_list_to_map (c : list (string * list byte)) attr :
  GetXAttr_loop c attr
  = ((list_to_map c : gmap string (list byte)) !! attr, fuse.OK).
Proof.
  induction c as [|[k v] c IH]; simpl.
  - by rewrite lookup_empty.
  - destruct (String.eqb_spec k attr) as [->|Hne].
    + by rewrite lookup_insert_eq.
    + by rewrite lookup_insert_ne.
Qed.

(** A cursor yields the bucket's pairs, each once. *)
Lemma cursor_perm (bkt : gmap string (list byte)) :
  merge_sort bolt.key_le (map_to_list bkt) ≡ₚ map_to_list bkt.
Proof. apply merge_sort_Permutation. Qed.

Lemma cursor_to_map (bkt : gmap string (list byte)) :
  list_to_map (merge_sort bolt.key_le (map_to_list bkt)) = bkt.
Proof.
  rewrite <- (list_to_map_to_list bkt) at 2.
  apply list_to_map_proper; [|apply cursor_perm].
  rewrite cursor_perm. apply NoDup_fst_map_to_list.
Qed.

Lemma GetXAttr_loop_cursor (bkt : gmap string (list byte)) attr :
  GetXAttr_loop (merge_sort bolt.key_le (map_to_list bkt)) attr
  = (bkt !! attr, fuse.OK).
Proof. by rewrite GetXAttr_loop_list_to_map, cursor_to_map. Qed.

(** The loop of ListXAttr appends the keys in cursor order. *)
Lemma ListXAttr_loop_keys (c : list (string * list byte)) (lis : list string) :
  ListXAttr_loop c lis = lis ++ c.*1.
Proof.
  unfold ListXAttr_loop. revert lis.
  induction c as [|kv c IH]; intros lis; simpl.
  - by rewrite app_nil_r.
  - rewrite IH. by rewrite <- app_assoc.
Qed.

Lemma names_of_perm (bkt : gmap string (list byte)) :
  names_of bkt ≡ₚ (map_to_list bkt).*1.
Proof. unfold names_of. by rewrite cursor_perm. Qed.

Lemma names_of_NoDup (bkt : gmap string (list byte)) : NoDup (names_of bkt).
Proof. rewrite names_of_perm. apply NoDup_fst_map_to_list. Qed.

Lemma elem_of_names_of (bkt : gmap string (list byte)) k :
  k ∈ names_of bkt ↔ is_Some (bkt !! k).
Proof.
  rewrite names_of_perm, <- elem_of_dom, dom_alt.
  by rewrite elem_of_list_to_set.
Qed.

(** GetXAttr on an open store. *)
Lemma GetXAttr_open name attr context db :
  bolt.opened db = true →
  GetXAttr Context_ name attr context db
  = (Returned match bolt.root db !! name with
              | None => (None, fuse.ENOENT)
              | Some bkt => (bkt !! attr, fuse.OK)
              end, db).
Proof.
  intros Hop. unfold GetXAttr, boltBucket, bolt.Begin, bolt.Bucket, bolt.Cursor.
  rewrite Hop; simpl.
  destruct (bolt.root db !! name) as [bkt|] eqn:Hb; simpl; [|done].
  by rewrite Hb, GetXAttr_loop_cursor.
Qed.

(** ListXAttr on an open store. *)
Lemma ListXAttr_open name context db :
  bolt.opened db = true →
  ListXAttr Context_ name context db
  = (Returned match bolt.root db !! name with
              | None => (None, fuse.ENOENT)
              | Some bkt => (Some (names_of bkt), fuse.OK)
              end, db).
Proof.
  intros Hop. unfold ListXAttr, boltBucket, bolt.Begin, bolt.Bucket, bolt.Cursor.
  rewrite Hop; simpl.
  destruct (bolt.root db !! name) as [bkt|] eqn:Hb; simpl; [|done].
  by rewrite Hb, ListXAttr_loop_keys.
Qed.

(** SetXAttr on an open store. *)
Lemma SetXAttr_open name attr data flags context disk_ok db :
  bolt.opened db = true →
  SetXAttr Context_ name attr data flags context disk_ok db
  = if Z.of_nat (String.length name) =? 0 then (Returned fuse.EIO, db)
    else if disk_ok
         then (Returned fuse.OK,
               {| bolt.opened := bolt.opened db;
                  bolt.root := put_attr name attr data
                                 (with_bucket name (bolt.root db)) |})
         else (Returned fuse.EIO, db).
Proof.
  intros Hop.
  unfold SetXAttr, bolt.Begin, bolt.CreateBucketIfNotExists, bolt.Put,
    bolt.Commit, put_attr, with_bucket, valid_key, valid_value.
  rewrite Hop; simpl.
  destruct (Z.of_nat (String.length name) =? 0); [done|].
  destruct (bolt.root db !! name); simpl;
    destruct (Z.of_nat (String.length attr) =? 0); simpl;
    destruct (Z.of_nat (String.length attr) >? bolt.MaxKeySize); simpl;
    destruct (Z.of_nat (length data) >? bolt.MaxValueSize); simpl;
    destruct disk_ok; simpl; by rewrite ?Hop.
Qed.

(** RemoveXAttr on an open store. *)
Lemma RemoveXAttr_open name attr context disk_ok db :
  bolt.opened db = true →
  RemoveXAttr Context_ name attr context disk_ok db
  = match bolt.root db !! name with
    | None => (Returned fuse.ENOENT, db)
    | Some _ =>
        if disk_ok
        then (Returned fuse.OK,
              {| bolt.opened := bolt.opened db;
                 bolt.root := alter (delete attr) name (bolt.root db) |})
        else (Returned fuse.EIO, db)
    end.
Proof.
  intros Hop.
  unfold RemoveXAttr, boltBucket, bolt.Begin, bolt.Bucket, bolt.Delete,
    bolt.Commit.
  rewrite Hop; simpl.
  destruct (bolt.root db !! name); simpl; [|done].
  destruct disk_ok; simpl; by rewrite ?Hop.
Qed.

(** No transaction can begin: SetXAttr answers EBUSY, the three methods
    built on boltBucket panic in their deferred Rollback. *)
Lemma SetXAttr_closed name attr data flags context disk_ok db :
  bolt.opened db = false →
  SetXAttr Context_ name attr data flags context disk_ok db
  = (Returned fuse.EBUSY, db).
Proof. intros Hcl. unfold SetXAttr, bolt.Begin. by rewrite Hcl. Qed.

Lemma boltBucket_closed name db :
  bolt.opened db = false → boltBucket name db = (None, None, None, fuse.EBUSY).
Proof. intros Hcl. unfold boltBucket, bolt.Begin. by rewrite Hcl. Qed.

(** Every attribute method keeps the store open or closed as it was. *)
Lemma step_opened (o : op Context_) db :
  bolt.opened (step Context_ o db) = bolt.opened db.
Proof.
  destruct (bolt.opened db) eqn:Hop; destruct o; simpl.
  - rewrite SetXAttr_open by done.
    destruct (_ =? _); [done|]. by destruct disk_ok.
  - by rewrite GetXAttr_open.
  - by rewrite ListXAttr_open.
  - rewrite RemoveXAttr_open by done.
    destruct (_ !! _); [|done]. by destruct disk_ok.
  - by rewrite SetXAttr_closed.
  - unfold GetXAttr. by rewrite boltBucket_closed.
  - unfold ListXAttr. by rewrite boltBucket_closed.
  - unfold RemoveXAttr. by rewrite boltBucket_closed.
Qed.

Lemma exec_opened (ops : list (op Context_)) db :
  bolt.opened (exec Context_ ops db) = bolt.opened db.
Proof.
  revert db. induction ops as [|o ops IH]; intros db; simpl; [done|].
  by rewrite IH, step_opened.
Qed.

End xattr_facts.

(** ** The attribute store *)

Section store_claims.

Variable Context_ : Type.

Implicit Types (db : bolt.DB) (name attr : string) (data : list byte)
  (context : Context_).

(** GetXAttr and ListXAttr hand the store back as they found it, whether
    they return or panic. *)
Lemma GetXAttr_store name attr context db :
  (GetXAttr Context_ name attr context db).2 = db.
Proof.
  destruct (bolt.opened db) eqn:Hop.
  - by rewrite GetXAttr_open.
  - unfold GetXAttr. by rewrite boltBucket_closed.
Qed.

Lemma ListXAttr_store name context db :
  (ListXAttr Context_ name context db).2 = db.
Proof.
  destruct (bolt.opened db) eqn:Hop.
  - by rewrite ListXAttr_open.
  - unfold ListXAttr. by rewrite boltBucket_closed.
Qed.

(** A SetXAttr that returns OK ran on an open store, on a path that is not
    the empty string, and its commit went through. *)
Lemma SetXAttr_OK_inv name attr data flags context disk_ok db db' :
  SetXAttr Context_ name attr data flags context disk_ok db
  = (Returned fuse.OK, db') →
  bolt.opened db = true ∧
  db' = {| bolt.opened := bolt.opened db;
           bolt.root := put_attr name attr data (with_bucket name (bolt.root db)) |}.
Proof.
  destruct (bolt.opened db) eqn:Hop.
  - rewrite SetXAttr_open by done.
    destruct (_ =? _); [done|]. destruct disk_ok; [|done].
    intros [= <-]. by rewrite Hop.
  - by rewrite SetXAttr_closed.
Qed.

(** A RemoveXAttr that returns OK ran on an open store that has a bucket
    for the path. *)
Lemma RemoveXAttr_OK_inv name attr context disk_ok db db' :
  RemoveXAttr Context_ name attr context disk_ok db = (Returned fuse.OK, db') →
  bolt.opened db = true ∧ is_Some (bolt.root db !! name) ∧
  db' = {| bolt.opened := bolt.opened db;
           bolt.root := alter (delete attr) name (bolt.root db) |}.
Proof.
  destruct (bolt.opened db) eqn:Hop.
  - rewrite RemoveXAttr_open by done.
    destruct (bolt.root db !! name) eqn:Hb; [|done].
    destruct disk_ok; [|done].
    intros [= <-]. by rewrite Hop.
  - unfold RemoveXAttr. by rewrite boltBucket_closed.
Qed.

(** C10: the flags argument of SetXAttr has no effect: with any two flags
    values the call returns the same status and leaves the same store. *)
Theorem SetXAttr_flags_ignored name attr data (flags1 flags2 : Z) context
    disk_ok db :
  (SetXAttr Context_ name attr data flags1 context disk_ok db).1
  = (SetXAttr Context_ name attr data flags2 context disk_ok db).1 ∧
  (SetXAttr Context_ name attr data flags1 context disk_ok db).2
  = (SetXAttr Context_ name attr data flags2 context disk_ok db).2.
Proof. unfold SetXAttr. split; reflexivity. Qed.

(** C7: a SetXAttr that returns OK on a path without a bucket leaves the
    store with exactly one more bucket, the one of that path; GetXAttr and
    ListXAttr leave every store exactly as it was. *)
Theorem lazy_creation name attr data flags context disk_ok db db' :
  bolt.root db !! name = None →
  SetXAttr Context_ name attr data flags context disk_ok db
  = (Returned fuse.OK, db') →
  (∃ bkt, bolt.root db' = <[name := bkt]> (bolt.root db)) ∧
  size (bolt.root db') = S (size (bolt.root db)) ∧
  (∀ db0 name0 attr0 context0,
     (GetXAttr Context_ name0 attr0 context0 db0).2 = db0 ∧
     (ListXAttr Context_ name0 context0 db0).2 = db0).
Proof.
  intros Hnone Hset.
  apply SetXAttr_OK_inv in Hset as [_ ->]; simpl.
  assert (∃ bkt, put_attr name attr data (with_bucket name (bolt.root db))
                 = <[name := bkt]> (bolt.root db)) as [bkt Hb].
  { unfold put_attr, with_bucket. rewrite Hnone.
    destruct (valid_key attr && valid_value data).
    - eexists. apply alter_insert_eq.
    - by eexists. }
  split; [by exists bkt|]. split.
  - rewrite Hb. by apply map_size_insert_None.
  - intros. split; [apply GetXAttr_store | apply ListXAttr_store].
Qed.

(** C6: after a RemoveXAttr that returned OK, GetXAttr of that name finds
    no value (nil, OK), and a second RemoveXAttr of the name, whose commit
    goes through, returns OK again and changes nothing. *)
Theorem Remove_then_Get_and_Remove name attr context context1 context2
    disk_ok db db' :
  RemoveXAttr Context_ name attr context disk_ok db = (Returned fuse.OK, db') →
  GetXAttr Context_ name attr context1 db' = (Returned (None, fuse.OK), db') ∧
  RemoveXAttr Context_ name attr context2 true db' = (Returned fuse.OK, db').
Proof.
  intros Hrm.
  apply RemoveXAttr_OK_inv in Hrm as (Hop & [bkt Hb] & ->).
  split.
  - rewrite GetXAttr_open by done. simpl.
    rewrite lookup_alter_eq, Hb. simpl. by rewrite lookup_delete_eq.
  - rewrite RemoveXAttr_open by done. simpl.
    rewrite lookup_alter_eq, Hb. simpl.
    rewrite alter_alter_eq.
    rewrite (alter_ext (delete attr ∘ delete attr) (delete attr)); [done|].
    intros b _. simpl. apply delete_delete_eq.
Qed.

(** C3 (what the code does when no transaction can begin): GetXAttr,
    ListXAttr and RemoveXAttr do not return EBUSY; their deferred Rollback
    runs on the nil transaction and the call panics. *)
Theorem begin_failure_panics name attr context disk_ok db :
  bolt.opened db = false →
  GetXAttr Context_ name attr context db = (Panicked, db) ∧
  ListXAttr Context_ name context db = (Panicked, db) ∧
  RemoveXAttr Context_ name attr context disk_ok db = (Panicked, db).
Proof.
  intros Hcl. unfold GetXAttr, ListXAttr, RemoveXAttr.
  by rewrite boltBucket_closed.
Qed.

(** C5, amended: on an open store, a path whose bucket is empty and a path
    without a bucket give the same payloads (GetXAttr no value, ListXAttr no
    names, RemoveXAttr no change of the store) but not the same status: OK
    when the bucket exists, ENOENT when it does not. *)
Theorem empty_or_missing_collection name attr context disk_ok db :
  bolt.opened db = true →
  bolt.root db !! name = Some ∅ ∨ bolt.root db !! name = None →
  let st := if bolt.root db !! name is Some _ then fuse.OK else fuse.ENOENT in
  GetXAttr Context_ name attr context db = (Returned (None, st), db) ∧
  (∃ lis, ListXAttr Context_ name context db = (Returned (lis, st), db) ∧
          slice_len lis = 0%nat) ∧
  RemoveXAttr Context_ name attr context true db = (Returned st, db) ∧
  (RemoveXAttr Context_ name attr context disk_ok db).2 = db.
Proof.
  intros Hop Hb.
  rewrite GetXAttr_open, ListXAttr_open, !RemoveXAttr_open by done.
  destruct db as [o r]; simpl in *.
  assert (alter (delete attr) name r = r) as Halt.
  { apply alter_id. intros b Hr. destruct Hb as [Hb|Hb]; [|congruence].
    assert (b = ∅) as -> by congruence. apply delete_empty. }
  destruct Hb as [Hb|Hb]; rewrite Hb; simpl.
  - rewrite Halt. repeat split; [|by destruct disk_ok].
    exists (Some []). split; [|done].
    unfold names_of. by rewrite map_to_list_empty.
  - repeat split. by exists None.
Qed.

End store_claims.

(** ** Sequences of calls *)

Section trace_claims.

Variable Context_ : Type.

Implicit Types (db : bolt.DB) (p n name attr : string) (data : list byte)
  (context : Context_) (o : op Context_) (ops : list (op Context_)).

Lemma step_closed o db : bolt.opened db = false → step Context_ o db = db.
Proof.
  intros Hcl. destruct o; simpl.
  - by rewrite SetXAttr_closed.
  - apply GetXAttr_store.
  - apply ListXAttr_store.
  - unfold RemoveXAttr. by rewrite boltBucket_closed.
Qed.

Lemma with_bucket_lookup_ne name p (r : gmap string (gmap string (list byte))) :
  name ≠ p → with_bucket name r !! p = r !! p.
Proof.
  intros Hne. unfold with_bucket. destruct (r !! name); [done|].
  by rewrite lookup_insert_ne.
Qed.

Lemma put_attr_lookup_ne name attr data p
    (r : gmap string (gmap string (list byte))) :
  name ≠ p → put_attr name attr data r !! p = r !! p.
Proof.
  intros Hne. unfold put_attr. destruct (_ && _); [|done].
  by rewrite lookup_alter_ne.
Qed.

(** A call that is not a successful Set on [p] gives [p] no bucket. *)
Lemma step_no_bucket p o db :
  bolt.root db !! p = None → writes Context_ p o db = false →
  bolt.root (step Context_ o db) !! p = None.
Proof.
  intros Hnone Hw. destruct (bolt.opened db) eqn:Hop;
    [|by rewrite step_closed]. destruct o; simpl in *.
  - rewrite SetXAttr_open in * by done.
    destruct (_ =? 0); [done|]. destruct disk_ok; [|done]. simpl in *.
    destruct (String.eqb_spec name p) as [->|Hne]; [done|].
    by rewrite put_attr_lookup_ne, with_bucket_lookup_ne.
  - by rewrite GetXAttr_store.
  - by rewrite ListXAttr_store.
  - rewrite RemoveXAttr_open by done.
    destruct (bolt.root db !! name); [|done]. destruct disk_ok; [|done].
    simpl. by apply lookup_alter_None.
Qed.

Lemma exec_no_bucket p ops db :
  bolt.root db !! p = None → never_written Context_ p ops db = true →
  bolt.root (exec Context_ ops db) !! p = None.
Proof.
  revert db. induction ops as [|o ops IH]; intros db Hnone Hnw; simpl in *;
    [done|].
  apply andb_prop in Hnw as [Hw Hnw]. apply negb_true_iff in Hw.
  apply IH; [by apply step_no_bucket | done].
Qed.

(** C2, amended: on a store that can begin transactions, for a path that
    has no bucket and is never successfully Set, GetXAttr returns no value
    and ListXAttr returns no names, neither touching the store; the status
    of both is ENOENT, not OK. *)
Theorem absent_path_reads p attr context ops db :
  bolt.opened db = true →
  bolt.root db !! p = None →
  never_written Context_ p ops db = true →
  GetXAttr Context_ p attr context (exec Context_ ops db)
  = (Returned (None, fuse.ENOENT), exec Context_ ops db) ∧
  ListXAttr Context_ p context (exec Context_ ops db)
  = (Returned (None, fuse.ENOENT), exec Context_ ops db).
Proof.
  intros Hop Hnone Hnw.
  pose proof (exec_no_bucket p ops db Hnone Hnw) as Hb.
  rewrite GetXAttr_open, ListXAttr_open by (by rewrite exec_opened).
  by rewrite Hb.
Qed.

(** *** Round trip *)

Lemma with_bucket_attr (name p n : string)
    (r : gmap string (gmap string (list byte))) :
  with_bucket name r !! p ≫= (.!! n) = r !! p ≫= (.!! n).
Proof.
  unfold with_bucket. destruct (r !! name) eqn:Hr; [done|].
  destruct (decide (name = p)) as [->|Hne].
  - by rewrite lookup_insert_eq, Hr.
  - by rewrite lookup_insert_ne.
Qed.

Lemma alter_attr (f : gmap string (list byte) → gmap string (list byte))
    (name p n : string) (r : gmap string (gmap string (list byte))) :
  (name = p → ∀ b, f b !! n = b !! n) →
  alter f name r !! p ≫= (.!! n) = r !! p ≫= (.!! n).
Proof.
  intros Hf. destruct (decide (name = p)) as [->|Hne].
  - rewrite lookup_alter_eq. destruct (r !! p); simpl; [|done]. by apply Hf.
  - by rewrite lookup_alter_ne.
Qed.

Lemma not_touching name attr p n :
  String.eqb name p && String.eqb attr n = false → name = p → attr ≠ n.
Proof.
  intros Ht -> ->. by rewrite !String.eqb_refl in Ht.
Qed.

(** A call other than Set(p, n, _) and Remove(p, n) keeps what is stored
    for attribute [n] of path [p]. *)
Lemma step_attr_at p n o db :
  touches Context_ p n o = false →
  attr_at (step Context_ o db) p n = attr_at db p n.
Proof.
  intros Ht. destruct (bolt.opened db) eqn:Hop;
    [|by rewrite step_closed]. unfold attr_at. destruct o; simpl in *.
  - rewrite SetXAttr_open by done.
    destruct (_ =? 0); [done|]. destruct disk_ok; [|done]. simpl.
    rewrite <- (with_bucket_attr name p n (bolt.root db)).
    unfold put_attr. destruct (valid_key attr && valid_value data); [|done].
    apply alter_attr. intros Heq b. apply lookup_insert_ne.
    by apply (not_touching name attr p n).
  - by rewrite GetXAttr_store.
  - by rewrite ListXAttr_store.
  - rewrite RemoveXAttr_open by done.
    destruct (bolt.root db !! name) eqn:Hb; [|done].
    destruct disk_ok; [|done]. simpl.
    apply alter_attr. intros Heq b. apply lookup_delete_ne.
    by apply (not_touching name attr p n).
Qed.

Lemma exec_attr_at p n ops db :
  forallb (fun o => negb (touches Context_ p n o)) ops = true →
  attr_at (exec Context_ ops db) p n = attr_at db p n.
Proof.
  revert db. induction ops as [|o ops IH]; intros db Hall; simpl in *; [done|].
  apply andb_prop in Hall as [Ht Hall]. apply negb_true_iff in Ht.
  by rewrite IH, step_attr_at.
Qed.

(** GetXAttr returns what the store holds for the attribute. *)
Lemma GetXAttr_attr_at p n context db v :
  bolt.opened db = true → attr_at db p n = Some v →
  GetXAttr Context_ p n context db = (Returned (Some v, fuse.OK), db).
Proof.
  intros Hop Hat. rewrite GetXAttr_open by done. unfold attr_at in Hat.
  destruct (bolt.root db !! p); simpl in *; [|done]. by rewrite Hat.
Qed.

(** X4: round trip for the names and values that bolt accepts: after a
    SetXAttr(p, n, v) that returned OK, GetXAttr(p, n) returns v, also after
    any calls that are neither Set(p, n, _) nor Remove(p, n). *)
Lemma round_trip_valid p n v flags context context' disk_ok ops db db' :
  valid_key n = true → valid_value v = true →
  SetXAttr Context_ p n v flags context disk_ok db = (Returned fuse.OK, db') →
  forallb (fun o => negb (touches Context_ p n o)) ops = true →
  GetXAttr Context_ p n context' (exec Context_ ops db')
  = (Returned (Some v, fuse.OK), exec Context_ ops db').
Proof.
  intros Hk Hv Hset Hops.
  apply SetXAttr_OK_inv in Hset as [Hop ->].
  apply GetXAttr_attr_at; [by rewrite exec_opened|].
  rewrite exec_attr_at by done. unfold attr_at, put_attr, with_bucket; simpl.
  rewrite Hk, Hv; simpl. rewrite lookup_alter_eq.
  destruct (bolt.root db !! p) eqn:Hb.
  - rewrite Hb; simpl. apply lookup_insert_eq.
  - rewrite lookup_insert_eq; simpl. apply lookup_insert_eq.
Qed.

End trace_claims.

(** *** List completeness *)

Section list_claims.

Variable Context_ : Type.

Implicit Types (db : bolt.DB) (p n : string) (v : list byte)
  (context : Context_) (nvs : list (string * list byte)).

Lemma nonempty_length p :
  p ≠ EmptyString → (Z.of_nat (String.length p) =? 0) = false.
Proof. destruct p; [done|]. intros _. simpl. lia. Qed.

(** On an open store a Set on a path other than the empty string returns
    OK when its commit goes through. *)
Lemma SetXAttr_returns_OK p n v flags context db :
  bolt.opened db = true → p ≠ EmptyString →
  (SetXAttr Context_ p n v flags context true db).1 = Returned fuse.OK.
Proof.
  intros Hop Hp. rewrite SetXAttr_open by done. by rewrite nonempty_length.
Qed.

(** X5: the unchecked Put: when bolt refuses the name or the value, SetXAttr
    still returns OK and what is stored for that name stays as it was. *)
Lemma SetXAttr_refused_Put p n v flags context db :
  bolt.opened db = true → p ≠ EmptyString →
  valid_key n && valid_value v = false →
  (SetXAttr Context_ p n v flags context true db).1 = Returned fuse.OK ∧
  attr_at (SetXAttr Context_ p n v flags context true db).2 p n = attr_at db p n.
Proof.
  intros Hop Hp Hbad. rewrite SetXAttr_open by done.
  rewrite nonempty_length by done. split; [done|]. simpl.
  unfold attr_at, put_attr. rewrite Hbad. simpl. apply with_bucket_attr.
Qed.

Lemma step_Set_bucket p n v flags context db :
  bolt.opened db = true → p ≠ EmptyString →
  valid_key n = true → valid_value v = true →
  bolt.root (step Context_ (OSet Context_ p n v flags context true) db) !! p
  = Some (<[n := v]> (default ∅ (bolt.root db !! p))).
Proof.
  intros Hop Hp Hk Hv. simpl. rewrite SetXAttr_open by done.
  rewrite nonempty_length by done. simpl.
  unfold put_attr, with_bucket. rewrite Hk, Hv; simpl.
  rewrite lookup_alter_eq. destruct (bolt.root db !! p) eqn:Hb.
  - by rewrite Hb.
  - by rewrite lookup_insert_eq.
Qed.

Lemma exec_sets_cons p n v nvs flags context db :
  exec Context_ (sets Context_ p ((n, v) :: nvs) flags context) db
  = exec Context_ (sets Context_ p nvs flags context)
      (step Context_ (OSet Context_ p n v flags context true) db).
Proof. reflexivity. Qed.

Lemma exec_sets_bucket p nvs flags context db bkt :
  bolt.opened db = true → p ≠ EmptyString →
  Forall (fun nv => valid_key nv.1 = true ∧ valid_value nv.2 = true) nvs →
  bolt.root db !! p = Some bkt →
  bolt.root (exec Context_ (sets Context_ p nvs flags context) db) !! p
  = Some (put_all nvs bkt).
Proof.
  intros Hop Hp Hall. revert db bkt Hop.
  induction Hall as [|[n v] nvs [Hk Hv] Hall IH]; intros db bkt Hop Hb;
    [done|].
  rewrite exec_sets_cons. apply IH.
  - by rewrite step_opened.
  - rewrite step_Set_bucket by done. by rewrite Hb.
Qed.

Lemma put_all_is_Some nvs (bkt : gmap string (list byte)) k :
  is_Some (put_all nvs bkt !! k) ↔ k ∈ nvs.*1 ∨ is_Some (bkt !! k).
Proof.
  revert bkt. induction nvs as [|[n v] nvs IH]; intros bkt; simpl.
  - rewrite elem_of_nil. tauto.
  - unfold put_all in *. simpl. rewrite IH, lookup_insert_is_Some, elem_of_cons.
    destruct (decide (n = k)) as [->|Hne]; [tauto|].
    split; [intros [?|[[]|[]]]|intros [[|]|]]; try tauto; congruence.
Qed.

(** X20: list completeness for the names and values that bolt accepts: after
    Sets of pairwise distinct names on a path that had no bucket, ListXAttr
    returns those names, each once. *)
Lemma list_complete_valid p nvs flags context context' db :
  bolt.opened db = true → p ≠ EmptyString →
  bolt.root db !! p = None →
  Forall (fun nv => valid_key nv.1 = true ∧ valid_value nv.2 = true) nvs →
  NoDup nvs.*1 → nvs ≠ [] →
  ∃ lis,
    ListXAttr Context_ p context'
      (exec Context_ (sets Context_ p nvs flags context) db)
    = (Returned (Some lis, fuse.OK),
       exec Context_ (sets Context_ p nvs flags context) db)
    ∧ lis ≡ₚ nvs.*1.
Proof.
  intros Hop Hp Hnone Hall Hnd Hne.
  destruct nvs as [|[n v] nvs]; [done|].
  apply Forall_cons in Hall as [[Hk Hv] Hall].
  assert (bolt.root (exec Context_ (sets Context_ p ((n, v) :: nvs) flags context) db) !! p
          = Some (put_all ((n, v) :: nvs) ∅)) as Hb.
  { rewrite exec_sets_cons.
    change (put_all ((n, v) :: nvs) ∅) with (put_all nvs (<[n := v]> ∅)).
    apply exec_sets_bucket; [|done|done|].
    - by rewrite step_opened.
    - rewrite step_Set_bucket by done. by rewrite Hnone. }
  rewrite ListXAttr_open by (by rewrite exec_opened).
  rewrite Hb. eexists; split; [done|].
  apply NoDup_Permutation; [apply names_of_NoDup | done |].
  intros k. rewrite elem_of_names_of, put_all_is_Some, lookup_empty.
  rewrite is_Some_alt. tauto.
Qed.

End list_claims.

(** ** The overlay *)

Section overlay_claims.

Variables Context_ Attr File DirEntry StatfsOut Time S : Type.
Variable x : FileSystem Context_ Attr File DirEntry StatfsOut Time S.

Lemma forward_db {A} (m : S → A * S) (w : World S) :
  w_db S (forward S m w).2 = w_db S w.
Proof. unfold forward. by destruct (m (w_fs S w)). Qed.

Lemma forward_result {A} (m : S → A * S) (w : World S) :
  forward S m w = ((m (w_fs S w)).1,
                   {| w_db := w_db S w; w_fs := (m (w_fs S w)).2 |}).
Proof. unfold forward. by destruct (m (w_fs S w)). Qed.

(** X21: every redirect method but StatFs returns what the embedded filesystem
    returns for the same call, and passes on its change of state. *)
Lemma overlay_forwards (c : call Context_ Time) (w : World S) :
  is_StatFs Context_ Time c = false →
  overlay Context_ Attr File DirEntry StatfsOut Time S x c w
  = ((backing Context_ Attr File DirEntry StatfsOut Time S x c (w_fs S w)).1,
     {| w_db := w_db S w;
        w_fs := (backing Context_ Attr File DirEntry StatfsOut Time S x c
                   (w_fs S w)).2 |}).
Proof.
  intros Hc. destruct c; try discriminate Hc; simpl; unfold tag;
    unfold GetAttr, Readlink, Mknod, Mkdir, Unlink, Rmdir, Symlink, Rename,
      Link, Chmod, Chown, Truncate, Open, OpenDir, Access, Create, Utimens;
    by rewrite forward_result.
Qed.

(** StatFs returns nil whatever the embedded filesystem would return. *)
Lemma StatFs_nil (name : string) (w : World S) :
  overlay Context_ Attr File DirEntry StatfsOut Time S x
    (CStatFs Context_ Time name) w
  = (RStatfs Attr File DirEntry StatfsOut None, w).
Proof. reflexivity. Qed.

(** C9: Rename and Unlink, as the overlay handles them, leave the attribute
    store as it was: no bucket is moved, removed or touched. *)
Theorem Rename_Unlink_keep_store (oldName newName name : string)
    (context : Context_) (w : World S) :
  w_db S (Rename Context_ Attr File DirEntry StatfsOut Time S x
            oldName newName context w).2 = w_db S w ∧
  w_db S (Unlink Context_ Attr File DirEntry StatfsOut Time S x
            name context w).2 = w_db S w.
Proof. split; apply forward_db. Qed.

End overlay_claims.

(** ** The claims on concrete stores *)

(** C1 (failing input): SetXAttr on "/a/b" with the empty attribute name
    and the value [1,2], on a fresh store, returns OK; yet bolt refuses the
    empty key and SetXAttr drops that error: the store gets an empty bucket,
    and GetXAttr of the empty name on "/a/b" finds no value. *)
Theorem SetXAttr_blank_name_not_stored :
  SetXAttr unit "/a/b" EmptyString [x01; x02] 0 tt true fresh_db
  = (Returned fuse.OK, blank_db) ∧
  GetXAttr unit "/a/b" EmptyString tt blank_db
  = (Returned (None, fuse.OK), blank_db).
Proof. split; vm_compute; reflexivity. Qed.

(** C8 (failing input): two Sets on "/a/b" with distinct names, the empty
    name and "user.tag", both return OK, and ListXAttr then returns
    "user.tag" alone. *)
Theorem ListXAttr_misses_blank_name :
  (SetXAttr unit "/a/b" EmptyString [x01] 0 tt true fresh_db).1
  = Returned fuse.OK ∧
  (SetXAttr unit "/a/b" "user.tag" [x02] 0 tt true
     (SetXAttr unit "/a/b" EmptyString [x01] 0 tt true fresh_db).2).1
  = Returned fuse.OK ∧
  (ListXAttr unit "/a/b" tt (exec unit blank_and_tag fresh_db)).1
  = Returned (Some ["user.tag"%string], fuse.OK).
Proof. repeat split; vm_compute; reflexivity. Qed.

(** C4 (failing input): on a backing filesystem whose StatFs returns a
    non-nil result, the overlay's StatFs returns nil. *)
Theorem StatFs_not_forwarded :
  backing unit unit unit unit unit unit unit yes_fs (CStatFs unit unit "/") tt
  = (RStatfs unit unit unit unit (Some tt), tt) ∧
  overlay unit unit unit unit unit unit unit yes_fs (CStatFs unit unit "/")
    {| w_db := fresh_db; w_fs := tt |}
  = (RStatfs unit unit unit unit None, {| w_db := fresh_db; w_fs := tt |}).
Proof. split; reflexivity. Qed.

(** C2, as stated, fails: on a fresh store neither GetXAttr nor ListXAttr
    of a path never written returns the status OK. *)
Lemma absent_path_status_not_OK :
  ¬ (∃ v, (GetXAttr unit "/never/touched" "x" tt fresh_db).1
          = Returned (v, fuse.OK)) ∧
  ¬ (∃ lis, (ListXAttr unit "/never/touched" tt fresh_db).1
            = Returned (lis, fuse.OK)).
Proof. split; intros [r Hr]; vm_compute in Hr; discriminate Hr. Qed.

(** C5, as stated, fails: "/a/b" has an empty bucket in [untagged_db] and
    no bucket in [fresh_db], and each of GetXAttr, ListXAttr and RemoveXAttr
    answers differently on the two. *)
Lemma empty_collection_unlike_missing :
  bolt.root untagged_db !! "/a/b"%string = Some ∅ ∧
  bolt.root fresh_db !! "/a/b"%string = None ∧
  (GetXAttr unit "/a/b" "user.tag" tt untagged_db).1
  ≠ (GetXAttr unit "/a/b" "user.tag" tt fresh_db).1 ∧
  (ListXAttr unit "/a/b" tt untagged_db).1
  ≠ (ListXAttr unit "/a/b" tt fresh_db).1 ∧
  (RemoveXAttr unit "/a/b" "user.tag" tt true untagged_db).1
  ≠ (RemoveXAttr unit "/a/b" "user.tag" tt true fresh_db).1.
Proof.
  split; [by vm_compute|]. split; [by vm_compute|].
  repeat split; intros H; vm_compute in H; discriminate H.
Qed.

Lemma absent_path_reads_witness :
  GetXAttr unit "/never/touched" "x" tt
    (exec unit [OGet unit "/never/touched" "x" tt;
                OSet unit "/a/b" "user.tag" [x01; x02] 0 tt true;
                OSet unit "/never/touched" "x" [x01] 0 tt false] fresh_db)
  = (Returned (None, fuse.ENOENT),
     exec unit [OGet unit "/never/touched" "x" tt;
                OSet unit "/a/b" "user.tag" [x01; x02] 0 tt true;
                OSet unit "/never/touched" "x" [x01] 0 tt false] fresh_db) ∧
  ListXAttr unit "/never/touched" tt
    (exec unit [OGet unit "/never/touched" "x" tt;
                OSet unit "/a/b" "user.tag" [x01; x02] 0 tt true;
                OSet unit "/never/touched" "x" [x01] 0 tt false] fresh_db)
  = (Returned (None, fuse.ENOENT),
     exec unit [OGet unit "/never/touched" "x" tt;
                OSet unit "/a/b" "user.tag" [x01; x02] 0 tt true;
                OSet unit "/never/touched" "x" [x01] 0 tt false] fresh_db).
Proof.
  apply (absent_path_reads unit "/never/touched" "x" tt); vm_compute; reflexivity.
Defined.

Lemma begin_failure_panics_witness :
  GetXAttr unit "/a/b" "user.tag" tt closed_db = (Panicked, closed_db) ∧
  ListXAttr unit "/a/b" tt closed_db = (Panicked, closed_db) ∧
  RemoveXAttr unit "/a/b" "user.tag" tt true closed_db = (Panicked, closed_db).
Proof.
  apply (begin_failure_panics unit "/a/b" "user.tag" tt true closed_db).
  reflexivity.
Defined.

Lemma empty_or_missing_collection_witness :
  GetXAttr unit "/a/b" "user.tag" tt untagged_db
  = (Returned (None, fuse.OK), untagged_db) ∧
  (∃ lis, ListXAttr unit "/a/b" tt untagged_db
          = (Returned (lis, fuse.OK), untagged_db) ∧ slice_len lis = 0%nat) ∧
  RemoveXAttr unit "/a/b" "user.tag" tt true untagged_db
  = (Returned fuse.OK, untagged_db) ∧
  (RemoveXAttr unit "/a/b" "user.tag" tt false untagged_db).2 = untagged_db.
Proof.
  apply (empty_or_missing_collection unit "/a/b" "user.tag" tt false untagged_db).
  - reflexivity.
  - left. vm_compute. reflexivity.
Defined.

Lemma Remove_then_Get_and_Remove_witness :
  GetXAttr unit "/a/b" "user.tag" tt untagged_db
  = (Returned (None, fuse.OK), untagged_db) ∧
  RemoveXAttr unit "/a/b" "user.tag" tt true untagged_db
  = (Returned fuse.OK, untagged_db).
Proof.
  apply (Remove_then_Get_and_Remove unit "/a/b" "user.tag" tt tt tt true
           tagged_db untagged_db).
  vm_compute. reflexivity.
Defined.

Lemma lazy_creation_witness :
  (∃ bkt, bolt.root tagged_db = <["/a/b"%string := bkt]> (bolt.root fresh_db)) ∧
  size (bolt.root tagged_db) = S (size (bolt.root fresh_db)) ∧
  (∀ db0 name0 attr0 context0,
     (GetXAttr unit name0 attr0 context0 db0).2 = db0 ∧
     (ListXAttr unit name0 context0 db0).2 = db0).
Proof.
  apply (lazy_creation unit "/a/b" "user.tag" [x01; x02] 0 tt true
           fresh_db tagged_db).
  - reflexivity.
  - vm_compute. reflexivity.
Defined.

(** * Further properties of the code *)

(** ** SetXAttr *)

Section more_on_Set.

Variable Context_ : Type.

Implicit Types (db : bolt.DB) (p q n name attr : string) (v data : list byte)
  (context : Context_) (r : gmap string (gmap string (list byte))).

(** The buckets a committed SetXAttr(p, n, v) leaves, seen path by path. *)
Lemma Set_root_lookup p n v r q :
  put_attr p n v (with_bucket p r) !! q
  = if decide (p = q) then Some (put_one n v (default ∅ (r !! p))) else r !! q.
Proof.
  unfold put_attr, with_bucket, put_one. case_decide as Hpq.
  - subst q. destruct (r !! p) eqn:Hr;
      destruct (valid_key n && valid_value v); simpl;
      by rewrite ?lookup_alter_eq, ?lookup_insert_eq, ?Hr.
  - destruct (r !! p) eqn:Hr;
      destruct (valid_key n && valid_value v); simpl;
      by rewrite ?lookup_alter_ne, ?lookup_insert_ne.
Qed.

(** A SetXAttr that returns OK was made on a path other than the empty
    string. *)
Lemma SetXAttr_OK_path name attr data flags context disk_ok db db' :
  SetXAttr Context_ name attr data flags context disk_ok db
  = (Returned fuse.OK, db') →
  name ≠ EmptyString.
Proof.
  intros Hset ->. destruct (bolt.opened db) eqn:Hop.
  - by rewrite SetXAttr_open in Hset by done.
  - by rewrite SetXAttr_closed in Hset by done.
Qed.

(** X1: SetXAttr never panics.  Its status is EBUSY exactly when no transaction
    can begin, and OK or EIO otherwise. *)
Theorem SetXAttr_status name attr data flags context disk_ok db :
  ∃ st, (SetXAttr Context_ name attr data flags context disk_ok db).1
        = Returned st ∧
        (st = fuse.OK ∨ st = fuse.EIO ∨ st = fuse.EBUSY) ∧
        (st = fuse.EBUSY ↔ bolt.opened db = false).
Proof.
  destruct (bolt.opened db) eqn:Hop.
  - rewrite SetXAttr_open by done.
    destruct (_ =? 0); [|destruct disk_ok]; eexists; (split; [done|]);
      (split; [auto|]); split; intros H; discriminate H.
  - rewrite SetXAttr_closed by done. exists fuse.EBUSY.
    split; [done|]. split; [auto|]. by split.
Qed.

(** X2: SetXAttr returns OK exactly when a transaction can begin, the path is
    not the empty string and the commit goes through: neither the attribute
    name nor the value can make it fail. *)
Theorem SetXAttr_OK_iff name attr data flags context disk_ok db :
  (SetXAttr Context_ name attr data flags context disk_ok db).1
  = Returned fuse.OK
  ↔ bolt.opened db = true ∧ name ≠ EmptyString ∧ disk_ok = true.
Proof.
  destruct (bolt.opened db) eqn:Hop.
  - rewrite SetXAttr_open by done. destruct name as [|a name'].
    + simpl. split; [done|]. by intros (_ & ? & _).
    + rewrite nonempty_length by done. destruct disk_ok; simpl.
      * split; [|done]. by intros _.
      * split; [done|]. by intros (_ & _ & ?).
  - rewrite SetXAttr_closed by done. split; [done|]. by intros [? _].
Qed.

(** X3: a SetXAttr that does not return OK leaves the store as it was: the
    bucket it may have created is rolled back with the failed commit. *)
Theorem SetXAttr_failure_keeps_store name attr data flags context disk_ok db :
  (SetXAttr Context_ name attr data flags context disk_ok db).1
  ≠ Returned fuse.OK →
  (SetXAttr Context_ name attr data flags context disk_ok db).2 = db.
Proof.
  destruct (bolt.opened db) eqn:Hop.
  - rewrite SetXAttr_open by done.
    destruct (_ =? 0); [done|]. by destruct disk_ok.
  - by rewrite SetXAttr_closed.
Qed.

(** X6: repeating a SetXAttr that returned OK, with the same name and value,
    returns OK again and changes nothing. *)
Theorem SetXAttr_twice name attr data flags flags' context context'
    disk_ok db db' :
  SetXAttr Context_ name attr data flags context disk_ok db
  = (Returned fuse.OK, db') →
  SetXAttr Context_ name attr data flags' context' true db'
  = (Returned fuse.OK, db').
Proof.
  intros Hset.
  pose proof (SetXAttr_OK_path _ _ _ _ _ _ _ _ Hset) as Hname.
  apply SetXAttr_OK_inv in Hset as [Hop ->].
  rewrite SetXAttr_open by done. rewrite nonempty_length by done.
  simpl. do 2 f_equal. apply map_eq. intros q.
  rewrite !Set_root_lookup. repeat case_decide; try done.
  simpl. f_equal. unfold put_one.
  destruct (valid_key attr && valid_value data); [|done].
  apply insert_insert_eq.
Qed.

(** X7: two SetXAttr calls on different attributes (another path or another
    name) leave the same store in either order. *)
Theorem SetXAttr_commute p1 n1 v1 p2 n2 v2 flags1 flags2
    (context1 context2 : Context_) disk_ok1 disk_ok2 db :
  (p1, n1) ≠ (p2, n2) →
  (SetXAttr Context_ p2 n2 v2 flags2 context2 disk_ok2
     (SetXAttr Context_ p1 n1 v1 flags1 context1 disk_ok1 db).2).2
  = (SetXAttr Context_ p1 n1 v1 flags1 context1 disk_ok1
       (SetXAttr Context_ p2 n2 v2 flags2 context2 disk_ok2 db).2).2.
Proof.
  intros Hne. destruct (bolt.opened db) eqn:Hop.
  2:{ rewrite !(SetXAttr_closed Context_ _ _ _ _ _ _ db) by done. done. }
  pose proof (step_opened Context_
                (OSet Context_ p1 n1 v1 flags1 context1 disk_ok1) db) as Ho1.
  pose proof (step_opened Context_
                (OSet Context_ p2 n2 v2 flags2 context2 disk_ok2) db) as Ho2.
  simpl in Ho1, Ho2. rewrite Hop in Ho1, Ho2.
  rewrite (SetXAttr_open Context_ p2 n2 v2 flags2 context2 disk_ok2 _ Ho1).
  rewrite (SetXAttr_open Context_ p1 n1 v1 flags1 context1 disk_ok1 _ Ho2).
  rewrite !(SetXAttr_open Context_ _ _ _ _ _ _ db Hop).
  destruct (Z.of_nat (String.length p1) =? 0) eqn:H1;
    destruct (Z.of_nat (String.length p2) =? 0) eqn:H2;
    destruct disk_ok1, disk_ok2; simpl; rewrite ?H1, ?H2; try done.
  simpl. f_equal. apply map_eq. intros q. rewrite !Set_root_lookup.
  repeat case_decide; subst; simpl; try done.
  f_equal. unfold put_one.
  assert (n1 ≠ n2) by congruence.
  destruct (valid_key n1 && valid_value v1);
    destruct (valid_key n2 && valid_value v2); try done.
  by apply insert_insert_ne.
Qed.

End more_on_Set.

(** ** GetXAttr, ListXAttr and RemoveXAttr *)

Section more_on_reads.

Variable Context_ : Type.

Implicit Types (db : bolt.DB) (p q n m name attr : string) (v data : list byte)
  (context : Context_).

(** X10: GetXAttr, ListXAttr and RemoveXAttr panic exactly when no transaction
    can begin: on a store that can begin one, the nil checks of boltBucket's
    callers are enough and each call returns. *)
Theorem panic_iff_no_transaction name attr context disk_ok db :
  panicked (GetXAttr Context_ name attr context db).1 = negb (bolt.opened db) ∧
  panicked (ListXAttr Context_ name context db).1 = negb (bolt.opened db) ∧
  panicked (RemoveXAttr Context_ name attr context disk_ok db).1
  = negb (bolt.opened db).
Proof.
  destruct (bolt.opened db) eqn:Hop.
  - rewrite GetXAttr_open, ListXAttr_open, RemoveXAttr_open by done.
    destruct (bolt.root db !! name); [destruct disk_ok|]; done.
  - unfold GetXAttr, ListXAttr, RemoveXAttr.
    by rewrite boltBucket_closed.
Qed.

(** X9: what boltBucket promises its callers: with OK the transaction, the
    bucket and the cursor are all there; with ENOENT the transaction is
    there (and must be rolled back) but bucket and cursor are nil; with
    EBUSY all three are nil.  There is no other status. *)
Theorem boltBucket_contract name db :
  let '(tx, b, c, st) := boltBucket name db in
  (st = fuse.OK ∧ is_Some tx ∧ is_Some b ∧ is_Some c ∧
   bolt.opened db = true ∧ is_Some (bolt.root db !! name)) ∨
  (st = fuse.ENOENT ∧ is_Some tx ∧ b = None ∧ c = None ∧
   bolt.opened db = true ∧ bolt.root db !! name = None) ∨
  (st = fuse.EBUSY ∧ tx = None ∧ b = None ∧ c = None ∧
   bolt.opened db = false).
Proof.
  unfold boltBucket, bolt.Begin, bolt.Bucket.
  destruct (bolt.opened db); simpl; [|by right; right].
  destruct (bolt.root db !! name); [left|right; left]; eauto 10.
Qed.

(** X11: on a path that has a bucket, ListXAttr returns OK and a list without
    duplicates that holds exactly the names for which GetXAttr returns a
    value; the placeholder element the list starts from is not in it unless
    it is a key. *)
Theorem ListXAttr_GetXAttr_agree name context context' db :
  bolt.opened db = true → is_Some (bolt.root db !! name) →
  ∃ lis, ListXAttr Context_ name context db = (Returned (Some lis, fuse.OK), db) ∧
         NoDup lis ∧
         ∀ attr, attr ∈ lis ↔
                 ∃ v, GetXAttr Context_ name attr context' db
                      = (Returned (Some v, fuse.OK), db).
Proof.
  intros Hop [bkt Hb]. rewrite ListXAttr_open by done. rewrite Hb.
  eexists; split; [done|]. split; [apply names_of_NoDup|].
  intros attr. rewrite elem_of_names_of, GetXAttr_open by done. rewrite Hb.
  split.
  - intros [v Hv]. exists v. by rewrite Hv.
  - intros [v Hv]. exists v. congruence.
Qed.

(** X12: the status of RemoveXAttr on a store that can begin a transaction:
    ENOENT exactly when the path has no bucket, otherwise OK or EIO as the
    commit goes; whether the name is there plays no part. *)
Theorem RemoveXAttr_status name attr context disk_ok db :
  bolt.opened db = true →
  (RemoveXAttr Context_ name attr context disk_ok db).1
  = Returned (match bolt.root db !! name with
              | None => fuse.ENOENT
              | Some _ => if disk_ok then fuse.OK else fuse.EIO
              end).
Proof.
  intros Hop. rewrite RemoveXAttr_open by done.
  destruct (bolt.root db !! name); [|done]. by destruct disk_ok.
Qed.

(** X13: a RemoveXAttr that does not return OK (it returns ENOENT or EIO, or it
    panics) leaves the store as it was. *)
Theorem RemoveXAttr_failure_keeps_store name attr context disk_ok db :
  (RemoveXAttr Context_ name attr context disk_ok db).1 ≠ Returned fuse.OK →
  (RemoveXAttr Context_ name attr context disk_ok db).2 = db.
Proof.
  destruct (bolt.opened db) eqn:Hop.
  - rewrite RemoveXAttr_open by done.
    destruct (bolt.root db !! name); [|done]. by destruct disk_ok.
  - unfold RemoveXAttr. by rewrite boltBucket_closed.
Qed.

(** X14: a RemoveXAttr that returns OK takes away that one name and nothing
    else: GetXAttr of every other attribute, on any path, answers as before,
    and ListXAttr of the path lists the names it listed before, less that
    name. *)
Theorem RemoveXAttr_only_that_name name attr context context' disk_ok db db' :
  RemoveXAttr Context_ name attr context disk_ok db = (Returned fuse.OK, db') →
  (∀ q m, (q, m) ≠ (name, attr) →
     (GetXAttr Context_ q m context' db').1
     = (GetXAttr Context_ q m context' db).1) ∧
  ∃ lis lis',
    (ListXAttr Context_ name context' db).1 = Returned (Some lis, fuse.OK) ∧
    (ListXAttr Context_ name context' db').1 = Returned (Some lis', fuse.OK) ∧
    ∀ k, k ∈ lis' ↔ k ∈ lis ∧ k ≠ attr.
Proof.
  intros Hrm. apply RemoveXAttr_OK_inv in Hrm as (Hop & [bkt Hb] & ->).
  split.
  - intros q m Hne. rewrite !GetXAttr_open by done. simpl.
    destruct (decide (name = q)) as [<-|Hq].
    + rewrite lookup_alter_eq, Hb. simpl.
      rewrite lookup_delete_ne by congruence. done.
    + by rewrite lookup_alter_ne.
  - rewrite !ListXAttr_open by done. simpl.
    rewrite lookup_alter_eq, Hb. simpl.
    eexists _, _. split; [done|]. split; [done|].
    intros k. rewrite !elem_of_names_of, lookup_delete_is_Some.
    intuition congruence.
Qed.

End more_on_reads.

(** ** Set followed by Remove *)

Section Set_then_Remove.

Variable Context_ : Type.

Implicit Types (db : bolt.DB) (name attr : string) (data : list byte)
  (context : Context_).

(** Both calls returned OK: what the store is afterwards. *)
Lemma Set_Remove_root name attr data flags context context' disk_ok disk_ok'
    db db1 db2 :
  SetXAttr Context_ name attr data flags context disk_ok db
  = (Returned fuse.OK, db1) →
  RemoveXAttr Context_ name attr context' disk_ok' db1
  = (Returned fuse.OK, db2) →
  bolt.opened db = true ∧
  db2 = {| bolt.opened := bolt.opened db;
           bolt.root := <[name := delete attr (default ∅ (bolt.root db !! name))]>
                          (bolt.root db) |}.
Proof.
  intros Hset Hrm.
  apply SetXAttr_OK_inv in Hset as [Hop ->].
  apply RemoveXAttr_OK_inv in Hrm as (_ & _ & ->). simpl.
  split; [done|]. f_equal. apply map_eq. intros q.
  destruct (decide (name = q)) as [<-|Hq].
  - rewrite lookup_alter_eq, Set_root_lookup, decide_True by done.
    rewrite lookup_insert_eq. simpl. f_equal. unfold put_one.
    destruct (valid_key attr && valid_value data); [|done].
    apply delete_insert_eq.
  - rewrite lookup_alter_ne, Set_root_lookup, decide_False by done.
    by rewrite lookup_insert_ne.
Qed.

(** X15: setting an attribute on a path that has no bucket and removing it
    again does not give the first store back: the path keeps an empty
    bucket, and GetXAttr on it, which returned ENOENT before, now returns
    OK (still without a value). *)
Theorem Set_Remove_leaves_bucket name attr attr' data flags
    context context' context'' disk_ok disk_ok' db db1 db2 :
  bolt.root db !! name = None →
  SetXAttr Context_ name attr data flags context disk_ok db
  = (Returned fuse.OK, db1) →
  RemoveXAttr Context_ name attr context' disk_ok' db1
  = (Returned fuse.OK, db2) →
  bolt.root db2 = <[name := ∅]> (bolt.root db) ∧
  GetXAttr Context_ name attr' context'' db
  = (Returned (None, fuse.ENOENT), db) ∧
  GetXAttr Context_ name attr' context'' db2
  = (Returned (None, fuse.OK), db2).
Proof.
  intros Hnone Hset Hrm.
  destruct (Set_Remove_root _ _ _ _ _ _ _ _ _ _ _ Hset Hrm) as [Hop ->].
  rewrite !GetXAttr_open by done. simpl.
  rewrite Hnone, lookup_insert_eq. simpl. by rewrite delete_empty.
Qed.

(** X16: on a path that has a bucket without the name, a SetXAttr of the name
    followed by a RemoveXAttr of it gives the first store back. *)
Theorem Set_Remove_restores name attr data flags context context'
    disk_ok disk_ok' db db1 db2 bkt :
  bolt.root db !! name = Some bkt → bkt !! attr = None →
  SetXAttr Context_ name attr data flags context disk_ok db
  = (Returned fuse.OK, db1) →
  RemoveXAttr Context_ name attr context' disk_ok' db1
  = (Returned fuse.OK, db2) →
  db2 = db.
Proof.
  intros Hb Hattr Hset Hrm.
  destruct (Set_Remove_root _ _ _ _ _ _ _ _ _ _ _ Hset Hrm) as [Hop ->].
  destruct db as [o r]; simpl in *. f_equal.
  rewrite Hb. simpl. rewrite delete_id by done. by apply insert_id.
Qed.

End Set_then_Remove.

(** ** What sequences of attribute calls keep *)

Section more_on_sequences.

Variable Context_ : Type.

Implicit Types (db : bolt.DB) (p q n name attr : string) (v data : list byte)
  (context : Context_) (o : op Context_) (ops : list (op Context_)).

Lemma step_keeps_bucket q o db :
  is_Some (bolt.root db !! q) → is_Some (bolt.root (step Context_ o db) !! q).
Proof.
  intros Hq. destruct (bolt.opened db) eqn:Hop;
    [|by rewrite step_closed]. destruct o; simpl.
  - rewrite SetXAttr_open by done.
    destruct (_ =? 0); [done|]. destruct disk_ok; [|done]. simpl.
    rewrite Set_root_lookup. by case_decide.
  - by rewrite GetXAttr_store.
  - by rewrite ListXAttr_store.
  - rewrite RemoveXAttr_open by done.
    destruct (bolt.root db !! name); [|done]. destruct disk_ok; [|done].
    simpl. by apply lookup_alter_is_Some.
Qed.

(** X17: no sequence of attribute calls ever takes a bucket away: a path that
    has one keeps it, also when all its attributes are removed. *)
Theorem buckets_never_removed q ops db :
  is_Some (bolt.root db !! q) →
  is_Some (bolt.root (exec Context_ ops db) !! q).
Proof.
  revert db. induction ops as [|o ops IH]; intros db Hq; simpl; [done|].
  by apply IH, step_keeps_bucket.
Qed.

Lemma step_other_path p o db :
  path_of Context_ o ≠ p →
  bolt.root (step Context_ o db) !! p = bolt.root db !! p.
Proof.
  intros Hp. destruct (bolt.opened db) eqn:Hop;
    [|by rewrite step_closed]. destruct o; simpl in *.
  - rewrite SetXAttr_open by done.
    destruct (_ =? 0); [done|]. destruct disk_ok; [|done]. simpl.
    rewrite Set_root_lookup. by rewrite decide_False.
  - by rewrite GetXAttr_store.
  - by rewrite ListXAttr_store.
  - rewrite RemoveXAttr_open by done.
    destruct (bolt.root db !! name); [|done]. destruct disk_ok; [|done].
    simpl. by rewrite lookup_alter_ne.
Qed.

(** X18: calls on other paths do not show on a path: after any sequence of
    attribute calls none of which is on [p], GetXAttr and ListXAttr on [p]
    answer as before it. *)
Theorem other_paths_do_not_interfere p attr context ops db :
  forallb (fun o => negb (String.eqb (path_of Context_ o) p)) ops = true →
  bolt.root (exec Context_ ops db) !! p = bolt.root db !! p ∧
  (GetXAttr Context_ p attr context (exec Context_ ops db)).1
  = (GetXAttr Context_ p attr context db).1 ∧
  (ListXAttr Context_ p context (exec Context_ ops db)).1
  = (ListXAttr Context_ p context db).1.
Proof.
  intros Hall.
  assert (bolt.root (exec Context_ ops db) !! p = bolt.root db !! p) as Hb.
  { revert db. induction ops as [|o ops IH]; intros db; simpl in *; [done|].
    apply andb_prop in Hall as [Ho Hall]. apply negb_true_iff in Ho.
    rewrite IH by done. apply step_other_path.
    intros Heq. by rewrite Heq, String.eqb_refl in Ho. }
  split; [done|]. destruct (bolt.opened db) eqn:Hop.
  - rewrite !GetXAttr_open, !ListXAttr_open by (by rewrite ?exec_opened).
    simpl. by rewrite Hb.
  - unfold GetXAttr, ListXAttr.
    rewrite !boltBucket_closed by (by rewrite ?exec_opened). done.
Qed.

(** [well_keyed], read through lookups. *)
Lemma well_keyed_spec db :
  well_keyed db = true ↔
  ∀ p bkt, bolt.root db !! p = Some bkt →
    p ≠ EmptyString ∧
    ∀ k v, bkt !! k = Some v → valid_key k = true ∧ valid_value v = true.
Proof.
  unfold well_keyed. rewrite forallb_forall. split.
  - intros H p bkt Hb.
    specialize (H (p, bkt)). rewrite <- list_elem_of_In in H.
    rewrite elem_of_map_to_list in H. specialize (H Hb). simpl in H.
    apply andb_prop in H as [Hp Hk]. split.
    + intros ->. by rewrite String.eqb_refl in Hp.
    + intros k v Hkv. rewrite forallb_forall in Hk.
      specialize (Hk (k, v)). rewrite <- list_elem_of_In in Hk.
      rewrite elem_of_map_to_list in Hk. specialize (Hk Hkv). simpl in Hk.
      by apply andb_prop in Hk.
  - intros H [p bkt] Hin. rewrite <- list_elem_of_In in Hin.
    apply elem_of_map_to_list in Hin. destruct (H p bkt Hin) as [Hp Hk].
    simpl. apply andb_true_intro. split.
    + apply negb_true_iff. by apply String.eqb_neq.
    + apply forallb_forall. intros [k v] Hkv.
      rewrite <- list_elem_of_In in Hkv. apply elem_of_map_to_list in Hkv.
      destruct (Hk k v Hkv) as [Hk1 Hk2]. simpl. by rewrite Hk1, Hk2.
Qed.

Lemma step_well_keyed o db :
  well_keyed db = true → well_keyed (step Context_ o db) = true.
Proof.
  intros Hwk. destruct (bolt.opened db) eqn:Hop;
    [|by rewrite step_closed]. destruct o; simpl.
  - rewrite SetXAttr_open by done.
    destruct (Z.of_nat (String.length name) =? 0) eqn:Hlen; [done|].
    destruct disk_ok; [|done]. simpl.
    apply well_keyed_spec. intros p bkt. simpl. rewrite Set_root_lookup.
    rewrite well_keyed_spec in Hwk. case_decide as Hp; [|by apply Hwk].
    subst p. intros [= <-]. split.
    { intros ->. simpl in Hlen. discriminate Hlen. }
    intros k v. unfold put_one.
    assert (∀ k v, default ∅ (bolt.root db !! name) !! k = Some v →
                   valid_key k = true ∧ valid_value v = true) as Hold.
    { intros k' v'. destruct (bolt.root db !! name) as [b|] eqn:Hb; simpl.
      - by apply (Hwk name b).
      - by rewrite lookup_empty. }
    destruct (valid_key attr && valid_value data) eqn:Hv; [|by apply Hold].
    apply andb_prop in Hv. rewrite lookup_insert.
    case_decide; [|by apply Hold]. by intros [= <-]; subst.
  - by rewrite GetXAttr_store.
  - by rewrite ListXAttr_store.
  - rewrite RemoveXAttr_open by done.
    destruct (bolt.root db !! name) as [b|] eqn:Hb; [|done].
    destruct disk_ok; [|done]. simpl.
    apply well_keyed_spec. intros p bkt. simpl.
    rewrite well_keyed_spec in Hwk.
    destruct (decide (name = p)) as [<-|Hp].
    + rewrite lookup_alter_eq, Hb. simpl. intros [= <-].
      destruct (Hwk name b Hb) as [Hn Hk]. split; [done|].
      intros k v [_ Hkv]%lookup_delete_Some. by apply Hk.
    + rewrite lookup_alter_ne by done. by apply Hwk.
Qed.

(** X19: the attribute calls keep the store well keyed: starting from a store
    in which no bucket is named by the empty path and every key and value
    is one bolt accepts (a fresh store for one), no sequence of calls ever
    stores the empty attribute name, the key the GetXAttr and ListXAttr
    loops would take for the end of the cursor. *)
Theorem well_keyed_kept ops db :
  well_keyed db = true → well_keyed (exec Context_ ops db) = true.
Proof.
  revert db. induction ops as [|o ops IH]; intros db Hwk; simpl; [done|].
  by apply IH, step_well_keyed.
Qed.

(** X8: setting a name that is already there replaces its value and leaves the
    names of the path as they are. *)
Theorem SetXAttr_overwrites name attr data flags context context' disk_ok
    db db' old :
  attr_at db name attr = Some old →
  valid_key attr = true → valid_value data = true →
  SetXAttr Context_ name attr data flags context disk_ok db
  = (Returned fuse.OK, db') →
  GetXAttr Context_ name attr context' db'
  = (Returned (Some data, fuse.OK), db') ∧
  ∃ lis lis',
    (ListXAttr Context_ name context' db).1 = Returned (Some lis, fuse.OK) ∧
    (ListXAttr Context_ name context' db').1 = Returned (Some lis', fuse.OK) ∧
    lis' ≡ₚ lis.
Proof.
  intros Hold Hk Hv Hset.
  apply SetXAttr_OK_inv in Hset as [Hop ->].
  unfold attr_at in Hold.
  destruct (bolt.root db !! name) as [bkt|] eqn:Hb; [|done]. simpl in Hold.
  split.
  { rewrite GetXAttr_open by done. simpl.
    rewrite Set_root_lookup, decide_True, Hb by done. simpl.
    unfold put_one. rewrite Hk, Hv. simpl. by rewrite lookup_insert_eq. }
  rewrite !ListXAttr_open by done. simpl.
  rewrite Set_root_lookup, decide_True, Hb by done. simpl.
  unfold put_one. rewrite Hk, Hv. simpl.
  eexists _, _. split; [done|]. split; [done|].
  apply NoDup_Permutation; [apply names_of_NoDup..|].
  intros k. rewrite !elem_of_names_of, lookup_insert_is_Some'.
  split; [|tauto]. intros [<-|?]; [by rewrite Hold|done].
Qed.

End more_on_sequences.

(** ** The overlay and main *)

Section more_on_overlay.

Variables Context_ Attr File DirEntry StatfsOut Time S : Type.
Variable x : FileSystem Context_ Attr File DirEntry StatfsOut Time S.

(** X22: none of the eighteen redirect methods touches the attribute store,
    whatever the embedded filesystem does. *)
Theorem overlay_keeps_store (c : call Context_ Time) (w : World S) :
  w_db S (overlay Context_ Attr File DirEntry StatfsOut Time S x c w).2
  = w_db S w.
Proof.
  destruct c; simpl;
    unfold GetAttr, Readlink, Mknod, Mkdir, Unlink, Rmdir, Symlink, Rename,
      Link, Chmod, Chown, Truncate, Open, OpenDir, Access, Create, Utimens;
    try apply forward_db; reflexivity.
Qed.

End more_on_overlay.

(** main prints the usage text exactly when it is given no argument at
    all. *)
Theorem main_usage_iff prog args open_ok mount_ok :
  EUsage prog ∈ main prog args open_ok mount_ok ↔ args = [].
Proof.
  unfold main. destruct args as [|a args].
  - simpl. split; [done|]. intros _. apply list_elem_of_here.
  - assert ((Z.of_nat (length (a :: args)) <? 1) = false) as ->
      by (apply Z.ltb_ge; simpl length; lia).
    split; [|done]. intros Hin.
    destruct open_ok, mount_ok; simpl in Hin;
      repeat (apply elem_of_cons in Hin as [Hin|Hin]; [discriminate Hin|]);
      by apply elem_of_nil in Hin.
Qed.

(** X23: with one or two arguments main does not stop at the usage text: it
    opens the store named by the first argument and, once that is open,
    mounts on the empty string as mount point (over the empty string as
    directory when there is only one argument). *)
Theorem main_few_arguments prog args mount_ok :
  args ≠ [] → (length args < 3)%nat →
  main prog args true mount_ok
  = EOpen (flag_Arg args 0) :: EMount (flag_Arg args 1) EmptyString ::
    (if mount_ok then [EServe; EClose] else [EExit 1]).
Proof.
  intros Hne Hlen. unfold main, flag_Arg.
  destruct args as [|a [|b [|c args]]]; simpl in *; try done; try lia;
    by destruct mount_ok.
Qed.


(** ** The further properties on concrete stores *)

Lemma SetXAttr_failure_keeps_store_witness :
  (SetXAttr unit "/a/b" "user.tag" [x01] 0 tt false fresh_db).2 = fresh_db.
Proof.
  apply (SetXAttr_failure_keeps_store unit "/a/b" "user.tag" [x01] 0 tt false
           fresh_db).
  vm_compute. discriminate.
Defined.

Lemma round_trip_valid_witness :
  GetXAttr unit "/a/b" "user.tag" tt
    (exec unit [OSet unit "/a/b" "user.rank" [x07] 0 tt true;
                ORemove unit "/c" "user.tag" tt true;
                OList unit "/a/b" tt] tagged_db)
  = (Returned (Some [x01; x02], fuse.OK),
     exec unit [OSet unit "/a/b" "user.rank" [x07] 0 tt true;
                ORemove unit "/c" "user.tag" tt true;
                OList unit "/a/b" tt] tagged_db).
Proof.
  apply (round_trip_valid unit "/a/b" "user.tag" [x01; x02] 0 tt tt true
           [OSet unit "/a/b" "user.rank" [x07] 0 tt true;
            ORemove unit "/c" "user.tag" tt true;
            OList unit "/a/b" tt] fresh_db tagged_db);
    vm_compute; reflexivity.
Defined.

Lemma SetXAttr_refused_Put_witness :
  (SetXAttr unit "/a/b" EmptyString [x01] 0 tt true tagged_db).1
  = Returned fuse.OK ∧
  attr_at (SetXAttr unit "/a/b" EmptyString [x01] 0 tt true tagged_db).2
    "/a/b" EmptyString
  = attr_at tagged_db "/a/b" EmptyString.
Proof.
  apply (SetXAttr_refused_Put unit "/a/b" EmptyString [x01] 0 tt tagged_db).
  - reflexivity.
  - discriminate.
  - reflexivity.
Defined.

Lemma SetXAttr_twice_witness :
  SetXAttr unit "/a/b" "user.tag" [x01; x02] 7 tt true tagged_db
  = (Returned fuse.OK, tagged_db).
Proof.
  apply (SetXAttr_twice unit "/a/b" "user.tag" [x01; x02] 0 7 tt tt true
           fresh_db tagged_db).
  vm_compute. reflexivity.
Defined.

Lemma SetXAttr_commute_witness :
  (SetXAttr unit "/a/b" "user.rank" [x07] 0 tt true
     (SetXAttr unit "/a/b" "user.tag" [x01] 0 tt true fresh_db).2).2
  = (SetXAttr unit "/a/b" "user.tag" [x01] 0 tt true
       (SetXAttr unit "/a/b" "user.rank" [x07] 0 tt true fresh_db).2).2.
Proof.
  apply (SetXAttr_commute unit "/a/b" "user.tag" [x01] "/a/b" "user.rank" [x07]
           0 0 tt tt true true fresh_db).
  discriminate.
Defined.

Lemma SetXAttr_overwrites_witness :
  GetXAttr unit "/a/b" "user.tag" tt
    (SetXAttr unit "/a/b" "user.tag" [x09] 0 tt true tagged_db).2
  = (Returned (Some [x09], fuse.OK),
     (SetXAttr unit "/a/b" "user.tag" [x09] 0 tt true tagged_db).2) ∧
  ∃ lis lis',
    (ListXAttr unit "/a/b" tt tagged_db).1 = Returned (Some lis, fuse.OK) ∧
    (ListXAttr unit "/a/b" tt
       (SetXAttr unit "/a/b" "user.tag" [x09] 0 tt true tagged_db).2).1
    = Returned (Some lis', fuse.OK) ∧
    lis' ≡ₚ lis.
Proof.
  apply (SetXAttr_overwrites unit "/a/b" "user.tag" [x09] 0 tt tt true
           tagged_db _ [x01; x02]); vm_compute; reflexivity.
Defined.

Lemma ListXAttr_GetXAttr_agree_witness :
  ∃ lis, ListXAttr unit "/a/b" tt tagged_db
         = (Returned (Some lis, fuse.OK), tagged_db) ∧
         NoDup lis ∧
         ∀ attr, attr ∈ lis ↔
                 ∃ v, GetXAttr unit "/a/b" attr tt tagged_db
                      = (Returned (Some v, fuse.OK), tagged_db).
Proof.
  apply (ListXAttr_GetXAttr_agree unit "/a/b" tt tt tagged_db).
  - reflexivity.
  - eexists. vm_compute. reflexivity.
Defined.

Lemma RemoveXAttr_status_witness :
  (RemoveXAttr unit "/never/touched" "x" tt true tagged_db).1
  = Returned fuse.ENOENT.
Proof.
  apply (RemoveXAttr_status unit "/never/touched" "x" tt true tagged_db).
  reflexivity.
Defined.

Lemma RemoveXAttr_failure_keeps_store_witness :
  (RemoveXAttr unit "/a/b" "user.tag" tt false tagged_db).2 = tagged_db.
Proof.
  apply (RemoveXAttr_failure_keeps_store unit "/a/b" "user.tag" tt false
           tagged_db).
  vm_compute. discriminate.
Defined.

Lemma RemoveXAttr_only_that_name_witness :
  (∀ q m, (q, m) ≠ ("/a/b"%string, "user.tag"%string) →
     (GetXAttr unit q m tt untagged_db).1 = (GetXAttr unit q m tt tagged_db).1) ∧
  ∃ lis lis',
    (ListXAttr unit "/a/b" tt tagged_db).1 = Returned (Some lis, fuse.OK) ∧
    (ListXAttr unit "/a/b" tt untagged_db).1 = Returned (Some lis', fuse.OK) ∧
    ∀ k, k ∈ lis' ↔ k ∈ lis ∧ k ≠ "user.tag"%string.
Proof.
  apply (RemoveXAttr_only_that_name unit "/a/b" "user.tag" tt tt true
           tagged_db untagged_db).
  vm_compute. reflexivity.
Defined.

Lemma Set_Remove_leaves_bucket_witness :
  bolt.root untagged_db = <["/a/b"%string := ∅]> (bolt.root fresh_db) ∧
  GetXAttr unit "/a/b" "user.rank" tt fresh_db
  = (Returned (None, fuse.ENOENT), fresh_db) ∧
  GetXAttr unit "/a/b" "user.rank" tt untagged_db
  = (Returned (None, fuse.OK), untagged_db).
Proof.
  apply (Set_Remove_leaves_bucket unit "/a/b" "user.tag" "user.rank"
           [x01; x02] 0 tt tt tt true true fresh_db tagged_db untagged_db);
    vm_compute; reflexivity.
Defined.

Lemma Set_Remove_restores_witness :
  (RemoveXAttr unit "/a/b" "user.tag" tt true
     (SetXAttr unit "/a/b" "user.tag" [x01; x02] 0 tt true untagged_db).2).2
  = untagged_db.
Proof.
  apply (Set_Remove_restores unit "/a/b" "user.tag" [x01; x02] 0 tt tt
           true true untagged_db
           (SetXAttr unit "/a/b" "user.tag" [x01; x02] 0 tt true untagged_db).2
           _ ∅); vm_compute; reflexivity.
Defined.

Lemma buckets_never_removed_witness :
  is_Some (bolt.root
             (exec unit [ORemove unit "/a/b" "user.tag" tt true;
                         ORemove unit "/a/b" "user.tag" tt true;
                         OSet unit "/c" "x" [x01] 0 tt true] tagged_db)
           !! "/a/b"%string).
Proof.
  apply (buckets_never_removed unit "/a/b").
  eexists. vm_compute. reflexivity.
Defined.

Lemma other_paths_do_not_interfere_witness :
  bolt.root (exec unit [OSet unit "/c" "user.tag" [x09] 0 tt true;
                        ORemove unit "/a" "user.tag" tt true] tagged_db)
    !! "/a/b"%string
  = bolt.root tagged_db !! "/a/b"%string ∧
  (GetXAttr unit "/a/b" "user.tag" tt
     (exec unit [OSet unit "/c" "user.tag" [x09] 0 tt true;
                 ORemove unit "/a" "user.tag" tt true] tagged_db)).1
  = (GetXAttr unit "/a/b" "user.tag" tt tagged_db).1 ∧
  (ListXAttr unit "/a/b" tt
     (exec unit [OSet unit "/c" "user.tag" [x09] 0 tt true;
                 ORemove unit "/a" "user.tag" tt true] tagged_db)).1
  = (ListXAttr unit "/a/b" tt tagged_db).1.
Proof.
  apply (other_paths_do_not_interfere unit "/a/b" "user.tag" tt).
  reflexivity.
Defined.

Lemma well_keyed_kept_witness :
  well_keyed (exec unit [OSet unit "/a/b" EmptyString [x01] 0 tt true;
                         OSet unit EmptyString "user.tag" [x01] 0 tt true;
                         OSet unit "/a/b" "user.tag" [x02] 0 tt true;
                         ORemove unit "/a/b" "user.rank" tt true] fresh_db)
  = true.
Proof.
  apply (well_keyed_kept unit). reflexivity.
Defined.

Lemma list_complete_valid_witness :
  ∃ lis,
    ListXAttr unit "/a/b" tt
      (exec unit (sets unit "/a/b"
                    [("user.tag"%string, [x01]); ("user.rank"%string, [x02])]
                    0 tt) fresh_db)
    = (Returned (Some lis, fuse.OK),
       exec unit (sets unit "/a/b"
                    [("user.tag"%string, [x01]); ("user.rank"%string, [x02])]
                    0 tt) fresh_db)
    ∧ lis ≡ₚ ["user.tag"%string; "user.rank"%string].
Proof.
  apply (list_complete_valid unit "/a/b"
           [("user.tag"%string, [x01]); ("user.rank"%string, [x02])]
           0 tt tt fresh_db).
  - reflexivity.
  - discriminate.
  - reflexivity.
  - repeat constructor.
  - simpl. apply NoDup_cons. split; [|apply NoDup_singleton].
    intros [=]%list_elem_of_singleton.
  - discriminate.
Defined.

Lemma overlay_forwards_witness :
  overlay unit unit unit unit unit unit unit yes_fs
    (CRename unit unit "/a/b" "/a/c" tt) {| w_db := tagged_db; w_fs := tt |}
  = ((backing unit unit unit unit unit unit unit yes_fs
        (CRename unit unit "/a/b" "/a/c" tt) tt).1,
     {| w_db := tagged_db;
        w_fs := (backing unit unit unit unit unit unit unit yes_fs
                   (CRename unit unit "/a/b" "/a/c" tt) tt).2 |}).
Proof.
  apply (overlay_forwards unit unit unit unit unit unit unit yes_fs
           (CRename unit unit "/a/b" "/a/c" tt)
           {| w_db := tagged_db; w_fs := tt |}).
  reflexivity.
Defined.

Lemma main_few_arguments_witness :
  main "go-xattr-fuse" ["xattr.db"%string] true true
  = [EOpen "xattr.db"; EMount EmptyString EmptyString; EServe; EClose].
Proof.
  apply (main_few_arguments "go-xattr-fuse" ["xattr.db"%string] true).
  - discriminate.
  - simpl. lia.
Defined.
